(** * Optical-module production cost calculator: the cost model

    A shallow embedding of [calculate_costs] (src/cost_calculator_app.py,
    lines 268-324), of the computational part of its caller [main] (the
    derived arguments of lines 57 and 71, the call of lines 125-137, the
    bars of the material chart of lines 197-201) and of
    [format_number_input] (lines 7-24) as its caller sees it.  The widgets,
    charts and tables of the user interface are not modelled: a widget is
    represented by the value it holds.

    Numbers.  A Python [int] is a [Z].  A Python [float] is an IEEE 754
    double, and the cost model is given twice.

    - [Rounded.calculate_costs] is the function on Python numbers
      ([PyNum]): an [int] or a double, every operator with the dispatch of
      CPython and every [float] operation rounded to binary64 ([F64]: the
      exact result rounded to nearest, ties to even, with infinities and
      not-a-number).  Overflow of a conversion or of a cast raises as it
      does in Python.  The statements about rounding, faults, the casts
      and the feasibility test are made on this model.

    - [calculate_costs] is the same function over the reals, a [float]
      standing for the rational it denotes.  It carries the statements
      made on the exact values: the integer product of line 276,
      Scenario A (whose revenue is evaluated a second time in binary64,
      [Binary64]), and the order and sign properties of the returned
      entries.

    Effects.  Both models are written in an error monad over [py_result],
    with Python's [ZeroDivisionError], [OverflowError] and [ValueError]. *)

From Stdlib Require Import ZArith QArith Qround Qpower Qabs Qreduction.
From Stdlib Require Import Bool Lia Lqa.
From Stdlib Require Import Floats.SpecFloat.
From Stdlib Require Import List Ascii String.
Import ListNotations.

Local Open Scope Q_scope.

(** ** Python values and faults *)

Inductive py_exn : Type :=
  | ZeroDivisionError
  | OverflowError
  | ValueError.

Inductive py_result (A : Type) : Type :=
  | Returns (a : A)
  | Raises (e : py_exn).

Arguments Returns {A} a.
Arguments Raises {A} e.

Definition bind {A B : Type} (m : py_result A) (k : A -> py_result B)
  : py_result B :=
  match m with
  | Returns a => k a
  | Raises e => Raises e
  end.

Notation "x <- m ;; k" := (bind m (fun x => k))
  (at level 61, m at next level, right associativity).

Module Py.

(** [float(z)]: the implicit conversion of an [int] operand. *)
Definition float (z : Z) : Q := inject_Z z.

(** [x / y], Python's true division. *)
Definition truediv (x y : Q) : py_result Q :=
  if Qeq_bool y 0 then Raises ZeroDivisionError else Returns (x / y).

(** [int(x)]: truncation toward zero. *)
Definition int (x : Q) : Z := Z.quot (Qnum x) (Zpos (Qden x)).

(** [x <= y] and [x > y]. *)
Definition le (x y : Q) : bool := Qle_bool x y.
Definition gt (x y : Q) : bool := negb (Qle_bool x y).

(** [max(x, y)]: the first argument unless the second is strictly
    greater. *)
Definition max (x y : Q) : Q := if gt y x then y else x.

End Py.

(** ** The data model *)

(** The eleven parameters of [calculate_costs], in the order of its
    signature.  The four counts are Python [int]s; the remaining ones are
    real-valued. *)
Record inputs : Type := {
  production_period_months : Z;
  target_glab_sales : Z;
  monthly_glab_capacity : Q;
  optical_block_price : Q;
  optical_quartz_price : Q;
  other_parts_price : Q;
  required_workers : Z;
  annual_salary : Q;
  initial_setup_cost : Q;
  depreciation_period_years : Z;
  optical_module_price_won : Q
}.

(** The local variables of [calculate_costs] as they stand after line 305,
    before any [int(...)] cast. *)
Module Locals.
Record t : Type := {
  annual_glab_capacity : Q;
  total_optical_modules : Z;
  monthly_optical_modules : Q;
  daily_optical_modules : Q;
  required_glab_per_month : Q;
  production_feasible : bool;
  capacity_shortage : Q;
  optical_quartz_cost_per_block : Q;
  optical_block_manufacturing_cost : Q;
  total_material_cost : Q;
  total_labor_cost : Q;
  annual_depreciation : Q;
  depreciation_cost : Q;
  total_production_cost : Q;
  annual_optical_modules : Q;
  annual_revenue : Q;
  annual_production_cost : Q;
  annual_profit : Q;
  profit_margin : Q
}.
End Locals.

(** The returned dictionary: sixteen keys (lines 307-324). *)
Module Result.
Record t : Type := {
  annual_glab_capacity : Q;
  total_optical_modules : Z;
  monthly_optical_modules : Z;
  daily_optical_modules : Z;
  production_feasible : bool;
  capacity_shortage : Z;
  optical_block_manufacturing_cost : Z;
  total_material_cost : Z;
  total_labor_cost : Z;
  total_production_cost : Z;
  annual_depreciation : Z;
  depreciation_cost : Z;
  annual_revenue : Z;
  annual_production_cost : Z;
  annual_profit : Z;
  profit_margin : Q
}.
End Result.

(** ** The cost model *)

(** Lines 273-305: the body of [calculate_costs] up to the [return]. *)
Definition calculate_locals (i : inputs) : py_result Locals.t :=
  let production_period_months := Py.float i.(production_period_months) in
  let target_glab_sales := i.(target_glab_sales) in
  (* basic figures *)
  let annual_glab_capacity := i.(monthly_glab_capacity) * 12 in
  let modules_per_glab := 12%Z in
  let total_optical_modules := (target_glab_sales * modules_per_glab)%Z in
  (* monthly and daily output *)
  monthly_optical_modules <-
    Py.truediv (Py.float total_optical_modules) production_period_months ;;
  daily_optical_modules <- Py.truediv monthly_optical_modules 30 ;;
  (* feasibility *)
  required_glab_per_month <-
    Py.truediv (Py.float target_glab_sales) production_period_months ;;
  let production_feasible :=
    Py.le required_glab_per_month i.(monthly_glab_capacity) in
  capacity_over_period <-
    Py.truediv (annual_glab_capacity * production_period_months) 12 ;;
  let capacity_shortage :=
    Py.max 0 (Py.float target_glab_sales - capacity_over_period) in
  (* costs *)
  let optical_quartz_cost_per_block := i.(optical_quartz_price) * 16 in
  let optical_block_manufacturing_cost :=
    i.(optical_block_price) + optical_quartz_cost_per_block
    + i.(other_parts_price) in
  let total_material_cost :=
    optical_block_manufacturing_cost * Py.float total_optical_modules in
  period_in_years <- Py.truediv production_period_months 12 ;;
  let total_labor_cost :=
    i.(annual_salary) * Py.float i.(required_workers) * period_in_years in
  (* depreciation *)
  annual_depreciation <-
    Py.truediv i.(initial_setup_cost)
               (Py.float i.(depreciation_period_years)) ;;
  period_in_years' <- Py.truediv production_period_months 12 ;;
  let depreciation_cost := annual_depreciation * period_in_years' in
  let total_production_cost :=
    total_material_cost + total_labor_cost + depreciation_cost in
  (* revenue and profit *)
  periods_per_year <- Py.truediv 12 production_period_months ;;
  let annual_optical_modules :=
    Py.float total_optical_modules * periods_per_year in
  let annual_revenue :=
    annual_optical_modules * i.(optical_module_price_won) in
  periods_per_year' <- Py.truediv 12 production_period_months ;;
  let annual_production_cost :=
    (total_material_cost + total_labor_cost) * periods_per_year'
    + annual_depreciation in
  let annual_profit := annual_revenue - annual_production_cost in
  profit_margin <-
    (if Py.gt annual_revenue 0
     then (ratio <- Py.truediv annual_profit annual_revenue ;;
           Returns (ratio * 100))
     else Returns 0) ;;
  Returns {|
    Locals.annual_glab_capacity := annual_glab_capacity;
    Locals.total_optical_modules := total_optical_modules;
    Locals.monthly_optical_modules := monthly_optical_modules;
    Locals.daily_optical_modules := daily_optical_modules;
    Locals.required_glab_per_month := required_glab_per_month;
    Locals.production_feasible := production_feasible;
    Locals.capacity_shortage := capacity_shortage;
    Locals.optical_quartz_cost_per_block := optical_quartz_cost_per_block;
    Locals.optical_block_manufacturing_cost :=
      optical_block_manufacturing_cost;
    Locals.total_material_cost := total_material_cost;
    Locals.total_labor_cost := total_labor_cost;
    Locals.annual_depreciation := annual_depreciation;
    Locals.depreciation_cost := depreciation_cost;
    Locals.total_production_cost := total_production_cost;
    Locals.annual_optical_modules := annual_optical_modules;
    Locals.annual_revenue := annual_revenue;
    Locals.annual_production_cost := annual_production_cost;
    Locals.annual_profit := annual_profit;
    Locals.profit_margin := profit_margin
  |}.

(** Lines 307-324: the returned dictionary, with its [int(...)] casts. *)
Definition result_dict (l : Locals.t) : Result.t := {|
  Result.annual_glab_capacity := l.(Locals.annual_glab_capacity);
  Result.total_optical_modules :=
    Py.int (Py.float l.(Locals.total_optical_modules));
  Result.monthly_optical_modules := Py.int l.(Locals.monthly_optical_modules);
  Result.daily_optical_modules := Py.int l.(Locals.daily_optical_modules);
  Result.production_feasible := l.(Locals.production_feasible);
  Result.capacity_shortage := Py.int l.(Locals.capacity_shortage);
  Result.optical_block_manufacturing_cost :=
    Py.int l.(Locals.optical_block_manufacturing_cost);
  Result.total_material_cost := Py.int l.(Locals.total_material_cost);
  Result.total_labor_cost := Py.int l.(Locals.total_labor_cost);
  Result.total_production_cost := Py.int l.(Locals.total_production_cost);
  Result.annual_depreciation := Py.int l.(Locals.annual_depreciation);
  Result.depreciation_cost := Py.int l.(Locals.depreciation_cost);
  Result.annual_revenue := Py.int l.(Locals.annual_revenue);
  Result.annual_production_cost := Py.int l.(Locals.annual_production_cost);
  Result.annual_profit := Py.int l.(Locals.annual_profit);
  Result.profit_margin := l.(Locals.profit_margin)
|}.

Definition calculate_costs (i : inputs) : py_result Result.t :=
  l <- calculate_locals i ;;
  Returns (result_dict l).

(** Line 57 of [main]: the capacity handed to [calculate_costs]. *)
Definition main_monthly_glab_capacity
    (target_glab_sales production_period_months : Z) : py_result Q :=
  Py.truediv (Py.float target_glab_sales) (Py.float production_period_months).

(** ** The constraints of the data model *)

(** The ranges of the input form: periods within 1..60 months and 1..20
    years, at least one unit and one worker, no negative price or cost.
    The capacity, a positive real in the data model, is left free here and
    constrained where a statement needs it. *)
Definition valid_input (i : inputs) : Prop :=
  (1 <= i.(production_period_months) <= 60)%Z /\
  (1 <= i.(target_glab_sales))%Z /\
  0 <= i.(optical_block_price) /\
  0 <= i.(optical_quartz_price) /\
  0 <= i.(other_parts_price) /\
  (1 <= i.(required_workers))%Z /\
  0 <= i.(annual_salary) /\
  0 <= i.(initial_setup_cost) /\
  (1 <= i.(depreciation_period_years) <= 20)%Z /\
  0 <= i.(optical_module_price_won).

(** ** Inputs used as examples *)

(** Scenario A of the specification: the defaults of the input form. *)
Definition scenario_A : inputs := {|
  production_period_months := 12;
  target_glab_sales := 600;
  monthly_glab_capacity := 50;
  optical_block_price := 140000;
  optical_quartz_price := 3750;
  other_parts_price := 1000;
  required_workers := 1;
  annual_salary := 40000000;
  initial_setup_cost := 30000000;
  depreciation_period_years := 5;
  optical_module_price_won := 50000000 / 12
|}.

(** A plan sold far below cost: the revenue is 168.75 and the annual
    production cost 1502200000.5. *)
Definition low_price_plan : inputs := {|
  production_period_months := 12;
  target_glab_sales := 600;
  monthly_glab_capacity := 50;
  optical_block_price := 140000;
  optical_quartz_price := 3750;
  other_parts_price := 1000;
  required_workers := 1;
  annual_salary := 40000000;
  initial_setup_cost := 30000001;
  depreciation_period_years := 2;
  optical_module_price_won := 3 # 128
|}.

(** The same input with another unit price. *)
Definition with_optical_module_price_won (i : inputs) (p : Q) : inputs := {|
  production_period_months := i.(production_period_months);
  target_glab_sales := i.(target_glab_sales);
  monthly_glab_capacity := i.(monthly_glab_capacity);
  optical_block_price := i.(optical_block_price);
  optical_quartz_price := i.(optical_quartz_price);
  other_parts_price := i.(other_parts_price);
  required_workers := i.(required_workers);
  annual_salary := i.(annual_salary);
  initial_setup_cost := i.(initial_setup_cost);
  depreciation_period_years := i.(depreciation_period_years);
  optical_module_price_won := p
|}.

(** Scenario A given away: a unit price of zero. *)
Definition free_of_charge_plan : inputs :=
  with_optical_module_price_won scenario_A 0.

(** ** IEEE binary64, for Scenario A *)

(** The unit price of Scenario A, 5.0 * 10000000 / 12, is rounded by
    binary64.  This module gives the operations of IEEE 754 double
    precision, round to nearest even, and the lines of the source that
    depend on that price. *)
Module Binary64.

Definition prec : Z := 53.

Definition emax : Z := 1024.

(** The conversion of an [int] operand; exact below 2^53. *)
Definition float (z : Z) : spec_float :=
  binary_normalize prec emax z 0 false.

Definition mul (x y : spec_float) : spec_float := SFmul prec emax x y.

Definition truediv (x y : spec_float) : py_result spec_float :=
  match y with
  | S754_zero _ => Raises ZeroDivisionError
  | _ => Returns (SFdiv prec emax x y)
  end.

(** [int(x)] on a float: truncation toward zero; infinities and
    not-a-number fault. *)
Definition int (x : spec_float) : py_result Z :=
  match x with
  | S754_zero _ => Returns 0%Z
  | S754_finite s m e =>
      Returns (cond_Zopp s (if (0 <=? e)%Z
                            then Z.shiftl (Zpos m) e
                            else Z.shiftr (Zpos m) (- e)))
  | S754_infinity _ => Raises OverflowError
  | S754_nan => Raises ValueError
  end.

(** Line 71 of [main]. *)
Definition main_optical_module_price_won
    (optical_module_set_price : spec_float) : py_result spec_float :=
  truediv (mul optical_module_set_price (float 10000000)) (float 12).

(** Lines 301, 302 and 320. *)
Definition returned_annual_revenue
    (total_optical_modules production_period_months : Z)
    (optical_module_price_won : spec_float) : py_result Z :=
  periods_per_year <- truediv (float 12) (float production_period_months) ;;
  let annual_optical_modules :=
    mul (float total_optical_modules) periods_per_year in
  let annual_revenue := mul annual_optical_modules optical_module_price_won in
  int annual_revenue.

End Binary64.

(** ** The caller: the computational part of [main] *)

(** The values read from the sidebar widgets of [main] (lines 41-122).
    The counts and the prices entered through [format_number_input] are
    Python [int]s; the set price is a [float]. *)
Module Form.

Record t : Type := {
  production_period_months : Z;
  target_glab_sales : Z;
  optical_module_set_price : Q;
  optical_block_price : Z;
  optical_quartz_price : Z;
  other_parts_price : Z;
  required_workers : Z;
  annual_salary : Z;
  initial_setup_cost : Z;
  depreciation_period_years : Z
}.

(** The bounds the widgets enforce: [min_value] and [max_value] of each
    [number_input], the default [min_value=0] of [format_number_input]. *)
Definition in_range (w : t) : Prop :=
  (1 <= w.(production_period_months) <= 60)%Z /\
  (1 <= w.(target_glab_sales))%Z /\
  1 # 10 <= w.(optical_module_set_price) /\
  (0 <= w.(optical_block_price))%Z /\
  (0 <= w.(optical_quartz_price))%Z /\
  (0 <= w.(other_parts_price))%Z /\
  (1 <= w.(required_workers))%Z /\
  (0 <= w.(annual_salary))%Z /\
  (0 <= w.(initial_setup_cost))%Z /\
  (1 <= w.(depreciation_period_years) <= 20)%Z.

End Form.

(** Line 71 of [main]: the price of one module from the price of a set of
    twelve, entered in units of ten million won. *)
Definition main_optical_module_price_won (optical_module_set_price : Q)
  : py_result Q :=
  Py.truediv (optical_module_set_price * 10000000) 12.


(** The argument list of that call once the two divisions of lines 57
    and 71 have returned their quotients. *)
Definition main_arguments (w : Form.t) : inputs := {|
  production_period_months := w.(Form.production_period_months);
  target_glab_sales := w.(Form.target_glab_sales);
  monthly_glab_capacity :=
    Py.float w.(Form.target_glab_sales)
    / Py.float w.(Form.production_period_months);
  optical_block_price := Py.float w.(Form.optical_block_price);
  optical_quartz_price := Py.float w.(Form.optical_quartz_price);
  other_parts_price := Py.float w.(Form.other_parts_price);
  required_workers := w.(Form.required_workers);
  annual_salary := Py.float w.(Form.annual_salary);
  initial_setup_cost := Py.float w.(Form.initial_setup_cost);
  depreciation_period_years := w.(Form.depreciation_period_years);
  optical_module_price_won := w.(Form.optical_module_set_price) * 10000000 / 12
|}.



(** ** The number field with its caption *)

(** The character of a decimal digit. *)
Definition digit_char (d : Z) : ascii := ascii_of_nat (48 + Z.to_nat d).

(** The decimal digits of a non-negative [int], least significant first. *)
Fixpoint digits_le (fuel : nat) (n : Z) : list Z :=
  match fuel with
  | O => []
  | S fuel' =>
      if (n <? 10)%Z then [n]
      else (n mod 10)%Z :: digits_le fuel' (n / 10)%Z
  end.

Definition decimal_digits (n : Z) : list Z :=
  digits_le (S (Z.to_nat (Z.log2 n))) n.

(** A comma in front of every digit that opens a further group of three,
    counting from the least significant digit; [room] digits still fit in
    the current group. *)
Fixpoint commas_le (room : nat) (ds : list ascii) : list ascii :=
  match ds with
  | [] => []
  | d :: rest =>
      match room with
      | O => ","%char :: d :: commas_le 2 rest
      | S room' => d :: commas_le room' rest
      end
  end.

(** [f"{n:,}"] on an [int]: Python's thousands-separator format. *)
Definition format_thousands (n : Z) : string :=
  let body :=
    rev (commas_le 3 (map digit_char (decimal_digits (Z.abs n)))) in
  string_of_list_ascii (if (n <? 0)%Z then "-"%char :: body else body).

(** [format_number_input] (lines 7-24) as its caller sees it.
    [input_value] is what the number widget of line 11 holds; the result is
    the caption written beside the field, if one is written, and the value
    returned on line 24. *)
Definition format_number_input (input_value : Z) : option string * Z :=
  (if (1000 <=? input_value)%Z
   then Some (format_thousands input_value)
   else None,
   input_value).

(** Reading a grouped number back: [int(s.replace(",", ""))] on an
    unsigned numeral. *)
Definition digit_value (c : ascii) : Z := Z.of_nat (nat_of_ascii c) - 48.

Fixpoint value_le (ds : list Z) : Z :=
  match ds with
  | [] => 0
  | d :: rest => d + 10 * value_le rest
  end.

Definition is_separator (c : ascii) : bool := Ascii.eqb c ","%char.

Definition read_thousands (s : string) : Z :=
  value_le
    (map digit_value
         (rev (filter (fun c => negb (is_separator c))
                      (list_ascii_of_string s)))).

(** ** Binary64 by its standard: the exact result, rounded *)

(** A Python [float] is an IEEE 754 double.  The standard defines every
    arithmetic operation as the exact real result rounded to the nearest
    double, ties to the even mantissa; that definition is written out here
    on rationals.  The two zeros of IEEE 754 are one value: they compare
    equal, cast to the same integer and fault alike as divisors, so the
    program cannot tell them apart except in the printed sign of a
    returned zero. *)
Module F64.

Inductive t : Type :=
  | Fin (q : Q)
  | Inf (negative : bool)
  | NaN.

Definition pow2 (e : Z) : Q := 2 ^ e.

(** The binade of a positive rational: the [e] with 2^e <= q < 2^(e+1). *)
Definition log2_floor (q : Q) : Z :=
  let e := (Z.log2 (Qnum q) - Z.log2 (Zpos (Qden q)))%Z in
  if Qle_bool (pow2 e) q then e else (e - 1)%Z.

(** The nearest integer, a tie going to the even one. *)
Definition rne (m : Q) : Z :=
  let f := Qfloor m in
  match Qcompare (m - inject_Z f) (1 # 2) with
  | Lt => f
  | Gt => (f + 1)%Z
  | Eq => if Z.even f then f else (f + 1)%Z
  end.

(** The exponent of the last mantissa bit: 52 below the binade, and never
    below that of the subnormals. *)
Definition ulp_exp (q : Q) : Z := Z.max (log2_floor q - 52) (-1074).

Definition on_grid (u : Z) (q : Q) : Q :=
  inject_Z (rne (q / pow2 u)) * pow2 u.

Definition nearest (q : Q) : Q := on_grid (ulp_exp q) q.

(** Rounding a positive rational; from 2^1024 on the result is infinite. *)
Definition round_pos (q : Q) : t :=
  let v := nearest q in
  if Qle_bool (pow2 1024) v then Inf false else Fin (Qred v).

Definition neg (x : t) : t :=
  match x with
  | Fin q => Fin (- q)
  | Inf s => Inf (negb s)
  | NaN => NaN
  end.

Definition round (q : Q) : t :=
  match Qcompare q 0 with
  | Eq => Fin 0
  | Gt => round_pos q
  | Lt => neg (round_pos (- q))
  end.

(** Order on doubles as Python compares them: anything against
    not-a-number is false. *)
Definition le (x y : t) : bool :=
  match x, y with
  | NaN, _ | _, NaN => false
  | Fin a, Fin b => Qle_bool a b
  | Fin _, Inf s => negb s
  | Inf s, Fin _ => s
  | Inf s, Inf s' => s || negb s'
  end.

Definition lt (x y : t) : bool := le x y && negb (le y x).

Definition is_zero (x : t) : bool :=
  match x with
  | Fin q => Qeq_bool q 0
  | _ => false
  end.

Definition negative (q : Q) : bool := negb (Qle_bool 0 q).

(** The operations: the exact result, rounded; the usual rules for
    infinities and not-a-number. *)
Definition add (x y : t) : t :=
  match x, y with
  | NaN, _ | _, NaN => NaN
  | Inf s, Inf s' => if Bool.eqb s s' then Inf s else NaN
  | Inf s, Fin _ | Fin _, Inf s => Inf s
  | Fin a, Fin b => round (a + b)
  end.

Definition sub (x y : t) : t := add x (neg y).

Definition mul (x y : t) : t :=
  match x, y with
  | NaN, _ | _, NaN => NaN
  | Inf s, Inf s' => Inf (xorb s s')
  | Inf s, Fin b | Fin b, Inf s =>
      if Qeq_bool b 0 then NaN else Inf (xorb s (negative b))
  | Fin a, Fin b => round (a * b)
  end.

(** Division by a divisor that is not zero. *)
Definition div (x y : t) : t :=
  match x, y with
  | NaN, _ | _, NaN => NaN
  | Inf _, Inf _ => NaN
  | Inf s, Fin b => Inf (xorb s (negative b))
  | Fin _, Inf _ => Fin 0
  | Fin a, Fin b => round (a / b)
  end.

(** The doubles: a mantissa below 2^53 on an exponent from -1074 up, below
    the overflow threshold. *)
Definition double (r : Q) : Prop :=
  exists z j : Z,
    (Z.abs z < 2 ^ 53)%Z /\ (-1074 <= j)%Z /\
    r == inject_Z z * pow2 j /\ Qabs r < pow2 1024.

(** The value of a double from the Standard Library's representation. *)
Definition of_spec_float (x : spec_float) : t :=
  match x with
  | S754_zero _ => Fin 0
  | S754_infinity s => Inf s
  | S754_nan => NaN
  | S754_finite s m e =>
      Fin (Qred ((if s then -1 else 1) * inject_Z (Zpos m) * pow2 e))
  end.

End F64.

(** ** Python numbers *)

(** A number is an [int] of any size or a [float].  The operators follow
    CPython: two [int]s stay exact; any other pair is converted to [float]
    first, and a conversion that would overflow raises [OverflowError]. *)
Module PyNum.

Inductive t : Type :=
  | Int (z : Z)
  | Float (x : F64.t).

(** [float(z)]: correctly rounded; [OverflowError] beyond the doubles. *)
Definition float_of_int (z : Z) : py_result F64.t :=
  match F64.round (inject_Z z) with
  | F64.Inf _ => Raises OverflowError
  | x => Returns x
  end.

Definition to_float (n : t) : py_result F64.t :=
  match n with
  | Int z => float_of_int z
  | Float x => Returns x
  end.

Definition arith (int_op : Z -> Z -> Z) (float_op : F64.t -> F64.t -> F64.t)
    (a b : t) : py_result t :=
  match a, b with
  | Int x, Int y => Returns (Int (int_op x y))
  | _, _ =>
      x <- to_float a ;;
      y <- to_float b ;;
      Returns (Float (float_op x y))
  end.

(** [a + b], [a - b], [a * b]. *)
Definition add : t -> t -> py_result t := arith Z.add F64.add.
Definition sub : t -> t -> py_result t := arith Z.sub F64.sub.
Definition mul : t -> t -> py_result t := arith Z.mul F64.mul.

(** [a / b]: between two [int]s the correctly rounded quotient, with
    [OverflowError] when it exceeds the doubles; otherwise the division of
    doubles.  A zero divisor raises [ZeroDivisionError]. *)
Definition truediv (a b : t) : py_result t :=
  match a, b with
  | Int x, Int y =>
      if (y =? 0)%Z then Raises ZeroDivisionError
      else match F64.round (inject_Z x / inject_Z y) with
           | F64.Inf _ => Raises OverflowError
           | q => Returns (Float q)
           end
  | _, _ =>
      x <- to_float a ;;
      y <- to_float b ;;
      if F64.is_zero y then Raises ZeroDivisionError
      else Returns (Float (F64.div x y))
  end.

(** The exact value of a number; Python compares an [int] with a [float]
    without rounding either. *)
Definition real (n : t) : F64.t :=
  match n with
  | Int z => F64.Fin (inject_Z z)
  | Float x => x
  end.

(** [a <= b], [a > b] and [max(a, b)]. *)
Definition le (a b : t) : bool := F64.le (real a) (real b).
Definition gt (a b : t) : bool := F64.lt (real b) (real a).
Definition max (a b : t) : t := if gt b a then b else a.

(** [int(n)]: truncation toward zero; [OverflowError] on an infinity and
    [ValueError] on not-a-number. *)
Definition int (n : t) : py_result Z :=
  match n with
  | Int z => Returns z
  | Float (F64.Fin q) => Returns (Py.int q)
  | Float (F64.Inf _) => Raises OverflowError
  | Float F64.NaN => Raises ValueError
  end.

(** A number that is not negative: an [int] or a finite [float]. *)
Definition nonneg (n : t) : Prop :=
  match n with
  | Int z => (0 <= z)%Z
  | Float (F64.Fin q) => 0 <= q
  | Float _ => False
  end.

(** A number of magnitude at most 2^k. *)
Definition within (k : Z) (n : t) : Prop :=
  match n with
  | Int z => Qabs (inject_Z z) <= F64.pow2 k
  | Float (F64.Fin q) => Qabs q <= F64.pow2 k
  | Float _ => False
  end.

End PyNum.

(** ** The cost model on Python numbers *)

(** [calculate_costs] (lines 268-324) once more, now with the arithmetic
    of CPython: every operator is the one of [PyNum], so each step rounds
    to binary64 where the source does, stays exact where the source works
    on [int]s, and faults where the source faults. *)
Module Rounded.

(** The four counts are [int]s; the other arguments are numbers, [int] or
    [float] as the caller passes them. *)
Record inputs : Type := {
  production_period_months : Z;
  target_glab_sales : Z;
  monthly_glab_capacity : PyNum.t;
  optical_block_price : PyNum.t;
  optical_quartz_price : PyNum.t;
  other_parts_price : PyNum.t;
  required_workers : Z;
  annual_salary : PyNum.t;
  initial_setup_cost : PyNum.t;
  depreciation_period_years : Z;
  optical_module_price_won : PyNum.t
}.

Module Locals.
Record t : Type := {
  annual_glab_capacity : PyNum.t;
  total_optical_modules : PyNum.t;
  monthly_optical_modules : PyNum.t;
  daily_optical_modules : PyNum.t;
  required_glab_per_month : PyNum.t;
  production_feasible : bool;
  capacity_shortage : PyNum.t;
  optical_quartz_cost_per_block : PyNum.t;
  optical_block_manufacturing_cost : PyNum.t;
  total_material_cost : PyNum.t;
  total_labor_cost : PyNum.t;
  annual_depreciation : PyNum.t;
  depreciation_cost : PyNum.t;
  total_production_cost : PyNum.t;
  annual_optical_modules : PyNum.t;
  annual_revenue : PyNum.t;
  annual_production_cost : PyNum.t;
  annual_profit : PyNum.t;
  profit_margin : PyNum.t
}.
End Locals.

Module Result.
Record t : Type := {
  annual_glab_capacity : PyNum.t;
  total_optical_modules : Z;
  monthly_optical_modules : Z;
  daily_optical_modules : Z;
  production_feasible : bool;
  capacity_shortage : Z;
  optical_block_manufacturing_cost : Z;
  total_material_cost : Z;
  total_labor_cost : Z;
  total_production_cost : Z;
  annual_depreciation : Z;
  depreciation_cost : Z;
  annual_revenue : Z;
  annual_production_cost : Z;
  annual_profit : Z;
  profit_margin : PyNum.t
}.
End Result.

(** Lines 273-305, one operator at a time, in the order Python evaluates
    them. *)
Definition calculate_locals (i : inputs) : py_result Locals.t :=
  let production_period_months := PyNum.Int i.(production_period_months) in
  let target_glab_sales := PyNum.Int i.(target_glab_sales) in
  let required_workers := PyNum.Int i.(required_workers) in
  let depreciation_period_years :=
    PyNum.Int i.(depreciation_period_years) in
  (* basic figures *)
  annual_glab_capacity <-
    PyNum.mul i.(monthly_glab_capacity) (PyNum.Int 12) ;;
  let modules_per_glab := PyNum.Int 12 in
  total_optical_modules <- PyNum.mul target_glab_sales modules_per_glab ;;
  (* monthly and daily output *)
  monthly_optical_modules <-
    PyNum.truediv total_optical_modules production_period_months ;;
  daily_optical_modules <-
    PyNum.truediv monthly_optical_modules (PyNum.Int 30) ;;
  (* feasibility *)
  required_glab_per_month <-
    PyNum.truediv target_glab_sales production_period_months ;;
  let production_feasible :=
    PyNum.le required_glab_per_month i.(monthly_glab_capacity) in
  capacity_months <- PyNum.mul annual_glab_capacity production_period_months ;;
  capacity_over_period <- PyNum.truediv capacity_months (PyNum.Int 12) ;;
  shortfall <- PyNum.sub target_glab_sales capacity_over_period ;;
  let capacity_shortage := PyNum.max (PyNum.Int 0) shortfall in
  (* costs *)
  optical_quartz_cost_per_block <-
    PyNum.mul i.(optical_quartz_price) (PyNum.Int 16) ;;
  block_and_quartz <-
    PyNum.add i.(optical_block_price) optical_quartz_cost_per_block ;;
  optical_block_manufacturing_cost <-
    PyNum.add block_and_quartz i.(other_parts_price) ;;
  total_material_cost <-
    PyNum.mul optical_block_manufacturing_cost total_optical_modules ;;
  salaries <- PyNum.mul i.(annual_salary) required_workers ;;
  period_in_years <- PyNum.truediv production_period_months (PyNum.Int 12) ;;
  total_labor_cost <- PyNum.mul salaries period_in_years ;;
  (* depreciation *)
  annual_depreciation <-
    PyNum.truediv i.(initial_setup_cost) depreciation_period_years ;;
  period_in_years' <- PyNum.truediv production_period_months (PyNum.Int 12) ;;
  depreciation_cost <- PyNum.mul annual_depreciation period_in_years' ;;
  material_and_labor <- PyNum.add total_material_cost total_labor_cost ;;
  total_production_cost <- PyNum.add material_and_labor depreciation_cost ;;
  (* revenue and profit *)
  periods_per_year <- PyNum.truediv (PyNum.Int 12) production_period_months ;;
  annual_optical_modules <- PyNum.mul total_optical_modules periods_per_year ;;
  annual_revenue <-
    PyNum.mul annual_optical_modules i.(optical_module_price_won) ;;
  material_and_labor' <- PyNum.add total_material_cost total_labor_cost ;;
  periods_per_year' <- PyNum.truediv (PyNum.Int 12) production_period_months ;;
  annual_variable_cost <- PyNum.mul material_and_labor' periods_per_year' ;;
  annual_production_cost <-
    PyNum.add annual_variable_cost annual_depreciation ;;
  annual_profit <- PyNum.sub annual_revenue annual_production_cost ;;
  profit_margin <-
    (if PyNum.gt annual_revenue (PyNum.Int 0)
     then (ratio <- PyNum.truediv annual_profit annual_revenue ;;
           PyNum.mul ratio (PyNum.Int 100))
     else Returns (PyNum.Int 0)) ;;
  Returns {|
    Locals.annual_glab_capacity := annual_glab_capacity;
    Locals.total_optical_modules := total_optical_modules;
    Locals.monthly_optical_modules := monthly_optical_modules;
    Locals.daily_optical_modules := daily_optical_modules;
    Locals.required_glab_per_month := required_glab_per_month;
    Locals.production_feasible := production_feasible;
    Locals.capacity_shortage := capacity_shortage;
    Locals.optical_quartz_cost_per_block := optical_quartz_cost_per_block;
    Locals.optical_block_manufacturing_cost :=
      optical_block_manufacturing_cost;
    Locals.total_material_cost := total_material_cost;
    Locals.total_labor_cost := total_labor_cost;
    Locals.annual_depreciation := annual_depreciation;
    Locals.depreciation_cost := depreciation_cost;
    Locals.total_production_cost := total_production_cost;
    Locals.annual_optical_modules := annual_optical_modules;
    Locals.annual_revenue := annual_revenue;
    Locals.annual_production_cost := annual_production_cost;
    Locals.annual_profit := annual_profit;
    Locals.profit_margin := profit_margin
  |}.

(** Lines 307-324: the dictionary, its casts evaluated in the order of the
    keys; the first cast that faults decides the exception. *)
Definition result_dict (l : Locals.t) : py_result Result.t :=
  total_optical_modules <- PyNum.int l.(Locals.total_optical_modules) ;;
  monthly_optical_modules <- PyNum.int l.(Locals.monthly_optical_modules) ;;
  daily_optical_modules <- PyNum.int l.(Locals.daily_optical_modules) ;;
  capacity_shortage <- PyNum.int l.(Locals.capacity_shortage) ;;
  optical_block_manufacturing_cost <-
    PyNum.int l.(Locals.optical_block_manufacturing_cost) ;;
  total_material_cost <- PyNum.int l.(Locals.total_material_cost) ;;
  total_labor_cost <- PyNum.int l.(Locals.total_labor_cost) ;;
  total_production_cost <- PyNum.int l.(Locals.total_production_cost) ;;
  annual_depreciation <- PyNum.int l.(Locals.annual_depreciation) ;;
  depreciation_cost <- PyNum.int l.(Locals.depreciation_cost) ;;
  annual_revenue <- PyNum.int l.(Locals.annual_revenue) ;;
  annual_production_cost <- PyNum.int l.(Locals.annual_production_cost) ;;
  annual_profit <- PyNum.int l.(Locals.annual_profit) ;;
  Returns {|
    Result.annual_glab_capacity := l.(Locals.annual_glab_capacity);
    Result.total_optical_modules := total_optical_modules;
    Result.monthly_optical_modules := monthly_optical_modules;
    Result.daily_optical_modules := daily_optical_modules;
    Result.production_feasible := l.(Locals.production_feasible);
    Result.capacity_shortage := capacity_shortage;
    Result.optical_block_manufacturing_cost :=
      optical_block_manufacturing_cost;
    Result.total_material_cost := total_material_cost;
    Result.total_labor_cost := total_labor_cost;
    Result.total_production_cost := total_production_cost;
    Result.annual_depreciation := annual_depreciation;
    Result.depreciation_cost := depreciation_cost;
    Result.annual_revenue := annual_revenue;
    Result.annual_production_cost := annual_production_cost;
    Result.annual_profit := annual_profit;
    Result.profit_margin := l.(Locals.profit_margin)
  |}.

Definition calculate_costs (i : inputs) : py_result Result.t :=
  l <- calculate_locals i ;;
  result_dict l.

(** Line 57 of [main]: the capacity handed to [calculate_costs]. *)
Definition main_monthly_glab_capacity
    (target_glab_sales production_period_months : Z) : py_result PyNum.t :=
  PyNum.truediv (PyNum.Int target_glab_sales)
                (PyNum.Int production_period_months).

(** Line 71 of [main]: the unit price from the price of a set. *)
Definition main_optical_module_price_won (optical_module_set_price : PyNum.t)
  : py_result PyNum.t :=
  scaled <- PyNum.mul optical_module_set_price (PyNum.Int 10000000) ;;
  PyNum.truediv scaled (PyNum.Int 12).

(** The constraints of the data model: periods within 1..60 months and
    1..20 years, at least one unit and one worker, no negative price or
    cost.  The capacity is left free. *)
Definition valid_input (i : inputs) : Prop :=
  (1 <= i.(production_period_months) <= 60)%Z /\
  (1 <= i.(target_glab_sales))%Z /\
  PyNum.nonneg i.(optical_block_price) /\
  PyNum.nonneg i.(optical_quartz_price) /\
  PyNum.nonneg i.(other_parts_price) /\
  (1 <= i.(required_workers))%Z /\
  PyNum.nonneg i.(annual_salary) /\
  PyNum.nonneg i.(initial_setup_cost) /\
  (1 <= i.(depreciation_period_years) <= 20)%Z /\
  PyNum.nonneg i.(optical_module_price_won).

(** Inputs none of whose quantities exceeds 2^300, about 2 x 10^90. *)
Definition moderate (i : inputs) : Prop :=
  (i.(target_glab_sales) <= 2 ^ 300)%Z /\
  (i.(required_workers) <= 2 ^ 300)%Z /\
  PyNum.within 300 i.(monthly_glab_capacity) /\
  PyNum.within 300 i.(optical_block_price) /\
  PyNum.within 300 i.(optical_quartz_price) /\
  PyNum.within 300 i.(other_parts_price) /\
  PyNum.within 300 i.(annual_salary) /\
  PyNum.within 300 i.(initial_setup_cost) /\
  PyNum.within 300 i.(optical_module_price_won).

(** The arguments [main] passes for the defaults of the form: whole-won
    prices as [int]s, capacity and unit price as the [float]s of lines 57
    and 71. *)
Definition plan (months target : Z) (capacity : PyNum.t)
    (salary setup : Z) (years : Z) (price : PyNum.t) : inputs := {|
  production_period_months := months;
  target_glab_sales := target;
  monthly_glab_capacity := capacity;
  optical_block_price := PyNum.Int 140000;
  optical_quartz_price := PyNum.Int 3750;
  other_parts_price := PyNum.Int 1000;
  required_workers := 1;
  annual_salary := PyNum.Int salary;
  initial_setup_cost := PyNum.Int setup;
  depreciation_period_years := years;
  optical_module_price_won := price
|}.

Definition float (q : Q) : PyNum.t := PyNum.Float (F64.Fin q).

(** Scenario A: 4166666.6666666665 is the double that line 71 yields. *)
Definition scenario_A : inputs :=
  plan 12 600 (float 50) 40000000 30000000 5
       (float (8947848533333333 # 2147483648)).

(** Six months, with labour and depreciation both ending in one half. *)
Definition half_year_plan : inputs :=
  plan 6 600 (float 100) 40000001 30000005 5 (float 4000000).

(** A capacity of 49.96875 a month against a required 50. *)
Definition near_capacity_plan : inputs :=
  plan 12 600 (float (1599 # 32)) 40000000 30000000 5 (float 4000000).

(** A capacity of 49 a month against a required 50. *)
Definition short_plan : inputs :=
  plan 12 600 (float 49) 40000000 30000000 5 (float 4000000).

(** Sold far below cost: a unit price of 0.0234375 won. *)
Definition low_price_plan : inputs :=
  plan 12 600 (float 50) 40000000 30000001 2 (float (3 # 128)).

(** One unit at 0.03125 won a module: a revenue of 0.375 won. *)
Definition sub_won_plan : inputs :=
  plan 12 1 (float (1 # 16)) 40000000 30000000 5 (float (1 # 32)).

(** Scenario A with the modules given away: the price is the [int] 0. *)
Definition free_of_charge_plan : inputs :=
  plan 12 600 (float 50) 40000000 30000000 5 (PyNum.Int 0).

(** Scenario A at a unit price of 1e308 won, the double
    2^1023 x 0.556...; the revenue exceeds the doubles. *)
Definition overflowing_plan : inputs :=
  plan 12 600 (float 50) 40000000 30000000 5
       (float (inject_Z (5010420900022432 * 2 ^ 971))).

(** The largest target the number widget accepts, 2^53 - 1 units, over
    seven months and over twenty-three, with the capacity of line 57. *)
Definition huge_plan_7 : inputs :=
  plan 7 9007199254740991 (float (2573485501354569 # 2)) 40000000 30000000 5
       (float 4000000).

Definition huge_plan_23 : inputs :=
  plan 23 9007199254740991 (float (6265877742428515 # 16)) 40000000 30000000 5
       (float 4000000).

End Rounded.

(** ** Facts about the Python primitives *)







(** [int] on a non-negative value is the floor, on a non-positive value
    the ceiling. *)
Lemma int_nonneg (x : Q) : 0 <= x -> Py.int x = Qfloor x.
Proof.
  destruct x as [n d]. unfold Qle, Py.int, Qfloor; cbn. intros H.
  apply Z.quot_div_nonneg; lia.
Qed.

Lemma int_nonpos (x : Q) : x <= 0 -> Py.int x = Qceiling x.
Proof.
  destruct x as [n d]. unfold Qle, Py.int, Qceiling, Qfloor; cbn. intros H.
  replace n with (- - n)%Z at 1 by lia.
  rewrite Z.quot_opp_l by lia. f_equal.
  apply Z.quot_div_nonneg; lia.
Qed.


#[global] Instance int_comp : Proper (Qeq ==> eq) Py.int.
Proof.
  intros x y E. destruct (Qlt_le_dec x 0) as [L|L].
  - rewrite !int_nonpos; [now rewrite E | rewrite <- E | ];
      now apply Qlt_le_weak.
  - rewrite !int_nonneg; [now rewrite E | now rewrite <- E | assumption].
Qed.

Lemma int_mono (x y : Q) : x <= y -> (Py.int x <= Py.int y)%Z.
Proof.
  intros H. destruct (Qlt_le_dec x 0) as [Lx|Lx], (Qlt_le_dec y 0) as [Ly|Ly].
  - rewrite !int_nonpos by now apply Qlt_le_weak.
    now apply Qceiling_resp_le.
  - rewrite int_nonpos by now apply Qlt_le_weak. rewrite int_nonneg by easy.
    transitivity 0%Z.
    + rewrite <- (Qceiling_Z 0). apply Qceiling_resp_le.
      now apply Qlt_le_weak.
    + rewrite <- (Qfloor_Z 0). now apply Qfloor_resp_le.
  - exfalso. apply (Qlt_irrefl 0).
    apply Qle_lt_trans with x; [assumption|].
    now apply Qle_lt_trans with y.
  - rewrite !int_nonneg by easy. now apply Qfloor_resp_le.
Qed.

(** The floor is the one integer within a unit below. *)
Lemma Qfloor_unique (x : Q) (k : Z) :
  inject_Z k <= x -> x < inject_Z (k + 1) -> Qfloor x = k.
Proof.
  intros Hlo Hhi.
  pose proof (Qfloor_le x) as F1. pose proof (Qlt_floor x) as F2.
  assert (A : inject_Z (Qfloor x) < inject_Z (k + 1))
    by now apply Qle_lt_trans with x.
  assert (B : inject_Z k < inject_Z (Qfloor x + 1))
    by now apply Qle_lt_trans with x.
  rewrite <- Zlt_Qlt in A, B. lia.
Qed.

(** ** Running the model *)



(** Closed facts on concrete inputs, by evaluation. *)
Ltac by_evaluation :=
  repeat split; vm_compute; first [reflexivity | discriminate].



(** ** Rational arithmetic used below *)

Lemma Qdiv_nonneg (a b : Q) : 0 <= a -> 0 < b -> 0 <= a / b.
Proof.
  intros Ha Hb. apply Qle_shift_div_l; [assumption|]. now rewrite Qmult_0_l.
Qed.

(** ** Properties of the returned dictionary *)



(** C3.  Scenario A: the call returns 7200 modules, a unit manufacturing
    cost of 201000, a material cost of 1447200000, a labour cost of
    40000000, an annual depreciation of 6000000, a total production cost of
    1493200000, and an annual revenue that is the floor of
    7200 x (50000000/12), namely 30000000000, which lies within 48 of the
    29,999,999,952 that the specification quotes as its approximation. *)
Theorem scenario_A_outputs :
  exists o,
    calculate_costs scenario_A = Returns o /\
    Result.total_optical_modules o = 7200%Z /\
    Result.optical_block_manufacturing_cost o = 201000%Z /\
    Result.total_material_cost o = 1447200000%Z /\
    Result.total_labor_cost o = 40000000%Z /\
    Result.annual_depreciation o = 6000000%Z /\
    Result.total_production_cost o = 1493200000%Z /\
    Result.annual_revenue o = Qfloor (7200 * (50000000 / 12)) /\
    Result.annual_revenue o = 30000000000%Z /\
    (Z.abs (Result.annual_revenue o - 29999999952) <= 48)%Z.
Proof.
  eexists. split; [reflexivity|]. by_evaluation.
Qed.

(** C7.  Raising [optical_module_price_won] alone lowers neither the
    returned [annual_revenue] nor the returned [annual_profit]. *)



(** ** Floor, ceiling and the cast *)

(** Above a negative value that is not an integer, the ceiling is the floor
    plus one; on an integer the two agree. *)
Lemma Qceiling_nonintegral (x : Q) :
  ~ x == inject_Z (Qfloor x) -> Qceiling x = (Qfloor x + 1)%Z.
Proof.
  intros N. unfold Qceiling.
  pose proof (Qfloor_le x) as L. pose proof (Qlt_floor x) as U.
  rewrite inject_Z_plus in U. change (inject_Z 1) with 1 in U.
  assert (S : inject_Z (Qfloor x) < x).
  { apply Qle_lteq in L. destruct L as [L|L]; [exact L|].
    exfalso. apply N. now symmetry. }
  rewrite (Qfloor_unique (- x) (- (Qfloor x + 1))); [lia | |].
  - rewrite inject_Z_opp, inject_Z_plus. change (inject_Z 1) with 1. lra.
  - replace (- (Qfloor x + 1) + 1)%Z with (- Qfloor x)%Z by lia.
    rewrite inject_Z_opp. lra.
Qed.

Lemma Qceiling_integral (x : Q) :
  x == inject_Z (Qfloor x) -> Qceiling x = Qfloor x.
Proof.
  intros E. rewrite E at 1. apply Qceiling_Z.
Qed.

(** ** Scenario A in IEEE binary64 *)

(** The price of line 71 is the double nearest to 4166666.67, and the
    revenue of line 302 rounds to 30000000000 exactly, as in the exact
    model. *)
Example binary64_scenario_A_price :
  Binary64.main_optical_module_price_won (Binary64.float 5)
  = Returns (S754_finite false 8947848533333333 (-31)).
Proof. vm_compute. reflexivity. Qed.

Example binary64_scenario_A_revenue :
  (price <- Binary64.main_optical_module_price_won (Binary64.float 5) ;;
   Binary64.returned_annual_revenue 7200 12 price)
  = Returns 30000000000%Z.
Proof. vm_compute. reflexivity. Qed.

(** * Further properties of the cost model *)

(** ** Signs of the intermediate values *)

Section Signs.

Variable i : inputs.
Hypothesis V : valid_input i.












End Signs.

(** ** Signs of the returned values *)

Lemma int_nonneg_le (x : Q) : 0 <= x -> (0 <= Py.int x)%Z.
Proof.
  intros H. apply int_mono in H. exact H.
Qed.



(** ** The margin against the profit *)



(** A loss without revenue shows a margin of zero: the guard of line 305
    takes the [else] branch. *)
Example free_of_charge_loss :
  exists o,
    calculate_costs free_of_charge_plan = Returns o /\
    Result.annual_profit o = (-1493200000)%Z /\
    Result.profit_margin o = 0.
Proof.
  eexists. split; [reflexivity|]. by_evaluation.
Qed.

Lemma float_nonneg (z : Z) : (0 <= z)%Z -> 0 <= Py.float z.
Proof.
  intros H. unfold Py.float. now rewrite <- (Zle_Qle 0).
Qed.

(** * The caller *)

(** ** What [main] hands to the cost model *)


Lemma main_arguments_valid (w : Form.t) :
  Form.in_range w -> valid_input (main_arguments w).
Proof.
  intros (Hm & Ht & Hs & Hb & Hq & Ho & Hw & Ha & Hc & Hy).
  unfold valid_input, main_arguments; cbn.
  repeat split; try lia; try (now apply float_nonneg).
  apply Qdiv_nonneg; [|reflexivity].
  apply Qmult_le_0_compat; [lra | discriminate].
Qed.

(** ** The charts *)



(** * The number field *)

(** ** Digits *)

Lemma digit_cases (d : Z) :
  (0 <= d < 10)%Z ->
  d = 0%Z \/ d = 1%Z \/ d = 2%Z \/ d = 3%Z \/ d = 4%Z \/
  d = 5%Z \/ d = 6%Z \/ d = 7%Z \/ d = 8%Z \/ d = 9%Z.
Proof. lia. Qed.

Lemma digit_char_not_separator (d : Z) :
  (0 <= d < 10)%Z -> is_separator (digit_char d) = false.
Proof.
  intros H. apply digit_cases in H.
  repeat (destruct H as [->|H]; [reflexivity|]). now subst.
Qed.

Lemma digit_value_char (d : Z) :
  (0 <= d < 10)%Z -> digit_value (digit_char d) = d.
Proof.
  intros H. apply digit_cases in H.
  repeat (destruct H as [->|H]; [reflexivity|]). now subst.
Qed.

Lemma digits_le_range (fuel : nat) (n : Z) :
  (0 <= n)%Z -> Forall (fun d => (0 <= d < 10)%Z) (digits_le fuel n).
Proof.
  revert n. induction fuel as [|fuel IH]; intros n Hn; cbn [digits_le].
  - constructor.
  - destruct (n <? 10)%Z eqn:E.
    + apply Z.ltb_lt in E. repeat constructor; lia.
    + constructor.
      * apply Z.mod_pos_bound. lia.
      * apply IH. apply Z.div_pos; lia.
Qed.

(** Enough fuel gives back the number. *)
Lemma value_le_digits_le (fuel : nat) (n : Z) :
  (0 <= n < 10 ^ Z.of_nat fuel)%Z -> value_le (digits_le fuel n) = n.
Proof.
  revert n. induction fuel as [|fuel IH]; intros n Hn.
  - change (10 ^ Z.of_nat 0)%Z with 1%Z in Hn. cbn. lia.
  - cbn [digits_le]. destruct (n <? 10)%Z eqn:E.
    + cbn. lia.
    + apply Z.ltb_ge in E. cbn [value_le]. rewrite IH.
      * pose proof (Z.div_mod n 10). lia.
      * rewrite Nat2Z.inj_succ, Z.pow_succ_r in Hn by lia.
        split; [apply Z.div_pos; lia|].
        apply Z.div_lt_upper_bound; lia.
Qed.

Lemma decimal_fuel_enough (n : Z) :
  (0 <= n)%Z -> (n < 10 ^ Z.of_nat (S (Z.to_nat (Z.log2 n))))%Z.
Proof.
  intros Hn. rewrite Nat2Z.inj_succ, Z2Nat.id by apply Z.log2_nonneg.
  destruct (Z.eq_dec n 0) as [->|Nz]; [reflexivity|].
  pose proof (Z.log2_spec n ltac:(lia)) as [_ Hi].
  apply Z.lt_le_trans with (1 := Hi).
  apply Z.pow_le_mono_l. pose proof (Z.log2_nonneg n). lia.
Qed.

Lemma value_le_decimal_digits (n : Z) :
  (0 <= n)%Z -> value_le (decimal_digits n) = n.
Proof.
  intros Hn. apply value_le_digits_le. split; [assumption|].
  now apply decimal_fuel_enough.
Qed.

(** Four digits or more from one thousand on, three at most below. *)
Lemma digits_le_short (fuel : nat) (n : Z) :
  (0 <= n < 1000)%Z -> (List.length (digits_le fuel n) <= 3)%nat.
Proof.
  intros Hn.
  destruct fuel as [|[|[|fuel]]]; cbn [digits_le];
    repeat (match goal with
            | |- context [(?a <? 10)%Z] => destruct (Z.ltb_spec a 10)
            end; cbn [digits_le]);
    cbn [List.length]; try lia.
  exfalso.
  assert (n / 10 / 10 < 10)%Z by (repeat apply Z.div_lt_upper_bound; lia).
  lia.
Qed.

Lemma digits_le_long (fuel : nat) (n : Z) :
  (1000 <= n)%Z ->
  (4 <= List.length (digits_le (S (S (S (S fuel)))) n))%nat.
Proof.
  intros Hn.
  assert (100 <= n / 10)%Z by (apply Z.div_le_lower_bound; lia).
  assert (10 <= n / 10 / 10)%Z by (apply Z.div_le_lower_bound; lia).
  do 3 (cbn [digits_le];
        match goal with
        | |- context [(?a <? 10)%Z] =>
            destruct (Z.ltb_spec a 10); [lia|]
        end; cbn [List.length]).
  destruct (_ <? 10)%Z; cbn [List.length]; lia.
Qed.

Lemma decimal_digits_length (n : Z) :
  (0 <= n)%Z ->
  ((3 < List.length (decimal_digits n))%nat <-> (1000 <= n)%Z).
Proof.
  intros Hn. unfold decimal_digits. split.
  - intros L. destruct (Z_lt_le_dec n 1000) as [Lt|Ge]; [|assumption].
    pose proof (digits_le_short (S (Z.to_nat (Z.log2 n))) n). lia.
  - intros Ge.
    assert (9 <= Z.log2 n)%Z
      by (change 9%Z with (Z.log2 1000); now apply Z.log2_le_mono).
    destruct (Z.to_nat (Z.log2 n)) as [|[|[|k]]] eqn:E; try lia.
    pose proof (digits_le_long k n Ge). lia.
Qed.

(** ** Separators *)

(** Dropping the separators gives back the digits. *)
Lemma commas_le_filter (ds : list ascii) (room : nat) :
  Forall (fun c => is_separator c = false) ds ->
  filter (fun c => negb (is_separator c)) (commas_le room ds) = ds.
Proof.
  intros plain. revert room.
  induction plain as [|d rest Hd Hrest IH]; intros room.
  - reflexivity.
  - cbn [commas_le]. destruct room as [|room]; cbn [filter].
    + change (is_separator ","%char) with true. cbn [negb].
      rewrite Hd. cbn [negb]. now rewrite IH.
    + rewrite Hd. cbn [negb]. now rewrite IH.
Qed.

(** A separator is inserted exactly when the digits overflow the room of
    the first group. *)
Lemma commas_le_separator (ds : list ascii) (room : nat) :
  Forall (fun c => is_separator c = false) ds ->
  (In ","%char (commas_le room ds) <-> (room < List.length ds)%nat).
Proof.
  intros plain. revert room.
  induction plain as [|d rest Hd Hrest IH]; intros room.
  - cbn. split; [contradiction | lia].
  - cbn [commas_le List.length]. destruct room as [|room].
    + split; [lia | intros _; now left].
    + cbn [In]. rewrite IH. split.
      * intros [E|L]; [|lia]. subst d. discriminate Hd.
      * intros L. right. lia.
Qed.

Lemma decimal_chars_plain (n : Z) :
  (0 <= n)%Z ->
  Forall (fun c => is_separator c = false)
         (map digit_char (decimal_digits n)).
Proof.
  intros Hn. apply Forall_map.
  apply Forall_impl with (2 := digits_le_range _ n Hn).
  intros d. apply digit_char_not_separator.
Qed.

Lemma format_thousands_chars (n : Z) :
  (0 <= n)%Z ->
  list_ascii_of_string (format_thousands n)
  = rev (commas_le 3 (map digit_char (decimal_digits n))).
Proof.
  intros Hn. unfold format_thousands.
  rewrite list_ascii_of_string_of_list_ascii.
  destruct (Z.ltb_spec n 0); [lia|]. now rewrite Z.abs_eq.
Qed.

(** ** The caption of [format_number_input] *)

(** For a value the widget accepts (not negative), the caption is written
    exactly when the thousands format of the value contains a separator:
    the threshold of line 22 is the least value with one. *)
Theorem caption_iff_separator (input_value : Z) :
  (0 <= input_value)%Z ->
  (fst (format_number_input input_value) <> None <->
   In ","%char (list_ascii_of_string (format_thousands input_value))).
Proof.
  intros Hn. rewrite (format_thousands_chars _ Hn), <- in_rev.
  rewrite (commas_le_separator _ _ (decimal_chars_plain _ Hn)).
  rewrite length_map, (decimal_digits_length _ Hn).
  unfold format_number_input. cbn [fst].
  destruct (Z.leb_spec 1000 input_value); split; intros H';
    try assumption; try discriminate; try lia.
  now contradiction H'.
Qed.

Lemma caption_iff_separator_witness :
  (0 <= 140000)%Z /\
  (fst (format_number_input 140000) <> None <->
   In ","%char (list_ascii_of_string (format_thousands 140000))).
Proof.
  split; [lia|]. apply (caption_iff_separator 140000). lia.
Defined.

(** The formatted text of a value that is not negative reads back as that
    value once the separators are dropped; so does the caption, which
    therefore shows the number the function returns. *)
Theorem format_thousands_reads_back (n : Z) :
  (0 <= n)%Z ->
  read_thousands (format_thousands n) = n /\
  (forall caption,
     fst (format_number_input n) = Some caption ->
     read_thousands caption = snd (format_number_input n)).
Proof.
  intros Hn.
  assert (R : read_thousands (format_thousands n) = n).
  { unfold read_thousands. rewrite (format_thousands_chars _ Hn).
    rewrite filter_rev, rev_involutive.
    rewrite (commas_le_filter _ _ (decimal_chars_plain _ Hn)).
    rewrite map_map.
    rewrite (map_ext_Forall _ (fun d => d)).
    - rewrite map_id. now apply value_le_decimal_digits.
    - apply Forall_impl with (2 := digits_le_range _ n Hn).
      intros d. apply digit_value_char. }
  split; [exact R|].
  unfold format_number_input. cbn [fst snd].
  intros caption. destruct (1000 <=? n)%Z; [|discriminate].
  intros [= <-]. exact R.
Qed.

Lemma format_thousands_reads_back_witness :
  (0 <= 40000000)%Z /\
  read_thousands (format_thousands 40000000) = 40000000%Z /\
  (forall caption,
     fst (format_number_input 40000000) = Some caption ->
     read_thousands caption = snd (format_number_input 40000000)).
Proof.
  split; [lia|]. apply (format_thousands_reads_back 40000000). lia.
Defined.

(** The defaults of the form: a caption beside the prices, none beside the
    target of 600 units. *)
Example default_captions :
  format_number_input 140000 = (Some "140,000"%string, 140000%Z) /\
  format_number_input 3750 = (Some "3,750"%string, 3750%Z) /\
  format_number_input 1000 = (Some "1,000"%string, 1000%Z) /\
  format_number_input 40000000 = (Some "40,000,000"%string, 40000000%Z) /\
  format_number_input 600 = (None, 600%Z).
Proof. by_evaluation. Qed.

(** ** Rounding to binary64 *)

(** The facts about the rounding that the cost model needs: it is
    monotone, it leaves a double unchanged, and so it keeps a result between
    any two doubles that enclose the exact value. *)
Module F64Facts.

Import F64.

(** *** Powers of two *)

Lemma pow2_pos (e : Z) : 0 < pow2 e.
Proof. apply Qpower_0_lt. reflexivity. Qed.

Lemma pow2_nonzero (e : Z) : ~ pow2 e == 0.
Proof.
  intros H. pose proof (pow2_pos e) as P. rewrite H in P.
  now apply Qlt_irrefl in P.
Qed.

Lemma pow2_le (a b : Z) : (a <= b)%Z -> pow2 a <= pow2 b.
Proof. intros H. apply Qpower_le_compat_l; [assumption | discriminate]. Qed.

Lemma pow2_lt (a b : Z) : (a < b)%Z -> pow2 a < pow2 b.
Proof. intros H. apply Qpower_lt_compat_l; [assumption | reflexivity]. Qed.

Lemma pow2_plus (a b : Z) : pow2 (a + b) == pow2 a * pow2 b.
Proof. apply Qpower_plus. discriminate. Qed.

Lemma pow2_minus (a b : Z) : pow2 (a - b) == pow2 a / pow2 b.
Proof.
  unfold Z.sub. rewrite pow2_plus. unfold pow2 at 2.
  rewrite Qpower_opp. reflexivity.
Qed.

Lemma pow2_Z (e : Z) : (0 <= e)%Z -> pow2 e == inject_Z (2 ^ e).
Proof. intros H. unfold pow2. now rewrite Zpower_Qpower. Qed.

(** *** The binade of a positive rational *)

Lemma log2_floor_spec (q : Q) :
  0 < q -> pow2 (log2_floor q) <= q < pow2 (log2_floor q + 1).
Proof.
  intros Hq. unfold log2_floor.
  destruct q as [a b]. cbn [Qnum Qden].
  assert (Ha : (0 < a)%Z) by (unfold Qlt in Hq; cbn in Hq; lia).
  destruct (Z.log2_spec a Ha) as [La Ua].
  destruct (Z.log2_spec (Zpos b) (Pos2Z.is_pos b)) as [Lb Ub].
  pose proof (Z.log2_nonneg a) as Na.
  pose proof (Z.log2_nonneg (Zpos b)) as Nb.
  set (la := Z.log2 a) in *. set (lb := Z.log2 (Zpos b)) in *.
  assert (Pb : 0 < inject_Z (Zpos b)) by reflexivity.
  assert (E : a # b == inject_Z a / inject_Z (Zpos b)) by apply Qmake_Qdiv.
  assert (Up : a # b < pow2 (la - lb + 1)).
  { rewrite E. apply Qlt_shift_div_r; [exact Pb|].
    apply Qlt_le_trans with (inject_Z (2 ^ (la + 1))).
    - rewrite <- Zlt_Qlt. replace (la + 1)%Z with (Z.succ la) by lia. exact Ua.
    - rewrite <- pow2_Z by lia.
      replace (la + 1)%Z with ((la - lb + 1) + lb)%Z by lia.
      rewrite pow2_plus. apply Qmult_le_l; [apply pow2_pos|].
      rewrite pow2_Z by lia. now rewrite <- Zle_Qle. }
  assert (Lo : pow2 (la - lb - 1) <= a # b).
  { rewrite E. apply Qle_shift_div_l; [exact Pb|].
    apply Qle_trans with (inject_Z (2 ^ la)).
    - rewrite <- pow2_Z by lia.
      replace la with ((la - lb - 1) + (lb + 1))%Z at 2 by lia.
      rewrite pow2_plus. apply Qmult_le_l; [apply pow2_pos|].
      rewrite pow2_Z by lia. rewrite <- Zle_Qle.
      replace (lb + 1)%Z with (Z.succ lb) by lia. lia.
    - now rewrite <- Zle_Qle. }
  destruct (Qle_bool (pow2 (la - lb)) (a # b)) eqn:C.
  - apply Qle_bool_iff in C. split; assumption.
  - split; [exact Lo|].
    replace (la - lb - 1 + 1)%Z with (la - lb)%Z by lia.
    apply Qnot_le_lt. intros H. apply Qle_bool_iff in H. congruence.
Qed.

Lemma log2_floor_unique (q : Q) (e : Z) :
  pow2 e <= q < pow2 (e + 1) -> log2_floor q = e.
Proof.
  intros [L U].
  assert (Hq : 0 < q) by (apply Qlt_le_trans with (pow2 e); [apply pow2_pos | exact L]).
  destruct (log2_floor_spec q Hq) as [L' U'].
  assert (A : pow2 e < pow2 (log2_floor q + 1)) by (apply Qle_lt_trans with q; assumption).
  assert (B : pow2 (log2_floor q) < pow2 (e + 1)) by (apply Qle_lt_trans with q; assumption).
  apply Qpower_lt_compat_l_inv in A; [|reflexivity].
  apply Qpower_lt_compat_l_inv in B; [|reflexivity].
  lia.
Qed.

Lemma log2_floor_mono (q1 q2 : Q) :
  0 < q1 -> q1 <= q2 -> (log2_floor q1 <= log2_floor q2)%Z.
Proof.
  intros H1 H12.
  assert (H2 : 0 < q2) by (apply Qlt_le_trans with q1; assumption).
  destruct (log2_floor_spec q1 H1) as [L1 _].
  destruct (log2_floor_spec q2 H2) as [_ U2].
  assert (A : pow2 (log2_floor q1) < pow2 (log2_floor q2 + 1)).
  { apply Qle_lt_trans with q1; [assumption|].
    apply Qle_lt_trans with q2; assumption. }
  apply Qpower_lt_compat_l_inv in A; [|reflexivity]. lia.
Qed.

Lemma log2_floor_comp (q1 q2 : Q) : 0 < q1 -> q1 == q2 -> log2_floor q1 = log2_floor q2.
Proof.
  intros H1 E. symmetry. apply log2_floor_unique.
  destruct (log2_floor_spec q1 H1) as [L U].
  split; [apply Qle_trans with q1 | apply Qle_lt_trans with q1]; try assumption.
  - rewrite E. apply Qle_refl.
  - rewrite E. apply Qle_refl.
Qed.

(** *** Rounding a rational to the nearest integer, ties to even *)

Lemma rne_bounds (m : Q) : (Qfloor m <= rne m <= Qfloor m + 1)%Z.
Proof.
  unfold rne. destruct (Qcompare _ _); [destruct (Z.even _)| |]; lia.
Qed.

Lemma rne_comp (m m' : Q) : m == m' -> rne m = rne m'.
Proof.
  intros E. unfold rne. rewrite (Qfloor_comp _ _ E).
  assert (C : Qcompare (m - inject_Z (Qfloor m')) (1 # 2)
              = Qcompare (m' - inject_Z (Qfloor m')) (1 # 2))
    by now rewrite E.
  now rewrite C.
Qed.

Lemma rne_Z (z : Z) : rne (inject_Z z) = z.
Proof.
  unfold rne. rewrite Qfloor_Z.
  assert (C : Qcompare (inject_Z z - inject_Z z) (1 # 2) = Lt).
  { apply Qlt_alt. setoid_replace (inject_Z z - inject_Z z) with 0 by ring.
    reflexivity. }
  now rewrite C.
Qed.

Lemma rne_ge_Z (m : Q) (z : Z) : inject_Z z <= m -> (z <= rne m)%Z.
Proof.
  intros H. apply Qfloor_resp_le in H. rewrite Qfloor_Z in H.
  pose proof (rne_bounds m). lia.
Qed.

Lemma rne_le_Z (m : Q) (z : Z) : m <= inject_Z z -> (rne m <= z)%Z.
Proof.
  intros H. apply Qle_lteq in H. destruct H as [H|H].
  - assert (F : (Qfloor m < z)%Z).
    { rewrite Zlt_Qlt. apply Qle_lt_trans with m; [apply Qfloor_le | exact H]. }
    pose proof (rne_bounds m). lia.
  - rewrite (rne_comp _ _ H), rne_Z. lia.
Qed.

Lemma rne_mono (m1 m2 : Q) : m1 <= m2 -> (rne m1 <= rne m2)%Z.
Proof.
  intros H.
  pose proof (Qfloor_resp_le _ _ H) as F.
  pose proof (rne_bounds m1) as B1. pose proof (rne_bounds m2) as B2.
  destruct (Z.eq_dec (Qfloor m1) (Qfloor m2)) as [E|N]; [|lia].
  unfold rne in *. rewrite E in *.
  set (f := Qfloor m2) in *.
  destruct (Qcompare (m1 - inject_Z f) (1 # 2)) eqn:C1;
    destruct (Qcompare (m2 - inject_Z f) (1 # 2)) eqn:C2;
    try (destruct (Z.even f)); try lia;
    exfalso;
    first [apply Qeq_alt in C1 | apply Qlt_alt in C1 | apply Qgt_alt in C1];
    first [apply Qeq_alt in C2 | apply Qlt_alt in C2 | apply Qgt_alt in C2];
    lra.
Qed.

(** *** The grid of multiples of a power of two *)

Lemma on_grid_comp (u : Z) (q q' : Q) : q == q' -> on_grid u q == on_grid u q'.
Proof.
  intros E. unfold on_grid.
  assert (E' : q / pow2 u == q' / pow2 u) by now rewrite E.
  now rewrite (rne_comp _ _ E').
Qed.

Lemma on_grid_mono (u : Z) (q1 q2 : Q) :
  q1 <= q2 -> on_grid u q1 <= on_grid u q2.
Proof.
  intros H. unfold on_grid.
  apply Qmult_le_compat_r; [|apply Qlt_le_weak, pow2_pos].
  rewrite <- Zle_Qle. apply rne_mono.
  apply Qmult_le_compat_r; [exact H|].
  apply Qinv_le_0_compat, Qlt_le_weak, pow2_pos.
Qed.

Lemma on_grid_exact (u j z : Z) :
  (u <= j)%Z -> on_grid u (inject_Z z * pow2 j) == inject_Z z * pow2 j.
Proof.
  intros H. unfold on_grid.
  assert (E : inject_Z z * pow2 j / pow2 u == inject_Z (z * 2 ^ (j - u))).
  { rewrite inject_Z_mult, <- pow2_Z by lia. rewrite pow2_minus.
    field. apply pow2_nonzero. }
  rewrite (rne_comp _ _ E), rne_Z.
  rewrite inject_Z_mult, <- pow2_Z by lia. rewrite pow2_minus.
  field. apply pow2_nonzero.
Qed.

Lemma on_grid_pow2 (u b : Z) : (u <= b)%Z -> on_grid u (pow2 b) == pow2 b.
Proof.
  intros H. rewrite (on_grid_comp u (pow2 b) (inject_Z 1 * pow2 b)).
  - rewrite on_grid_exact by assumption. ring.
  - ring.
Qed.

Lemma on_grid_le_pow (u b : Z) (q : Q) :
  (u <= b)%Z -> q <= pow2 b -> on_grid u q <= pow2 b.
Proof.
  intros H L. rewrite <- (on_grid_pow2 u b H). now apply on_grid_mono.
Qed.

Lemma on_grid_ge_pow (u b : Z) (q : Q) :
  (u <= b)%Z -> pow2 b <= q -> pow2 b <= on_grid u q.
Proof.
  intros H L. rewrite <- (on_grid_pow2 u b H). now apply on_grid_mono.
Qed.

Lemma on_grid_nonneg (u : Z) (q : Q) : 0 <= q -> 0 <= on_grid u q.
Proof.
  intros H. unfold on_grid. apply Qmult_le_0_compat.
  - rewrite <- (Zle_Qle 0). apply rne_ge_Z.
    apply Qmult_le_0_compat; [exact H|].
    apply Qinv_le_0_compat, Qlt_le_weak, pow2_pos.
  - apply Qlt_le_weak, pow2_pos.
Qed.

(** *** The nearest double of a positive rational, exponent unbounded above *)

Lemma ulp_exp_mono (q1 q2 : Q) :
  0 < q1 -> q1 <= q2 -> (ulp_exp q1 <= ulp_exp q2)%Z.
Proof.
  intros H1 H. unfold ulp_exp. pose proof (log2_floor_mono q1 q2 H1 H). lia.
Qed.

Lemma ulp_exp_le_log2 (q : Q) :
  (-1074 <= log2_floor q)%Z -> (ulp_exp q <= log2_floor q)%Z.
Proof. unfold ulp_exp. lia. Qed.

Lemma nearest_comp (q q' : Q) : 0 < q -> q == q' -> nearest q == nearest q'.
Proof.
  intros H E. unfold nearest, ulp_exp.
  rewrite (log2_floor_comp q q' H E). now apply on_grid_comp.
Qed.

Lemma nearest_mono (q1 q2 : Q) :
  0 < q1 -> q1 <= q2 -> nearest q1 <= nearest q2.
Proof.
  intros H1 H.
  assert (H2 : 0 < q2) by (apply Qlt_le_trans with q1; assumption).
  pose proof (ulp_exp_mono q1 q2 H1 H) as U.
  unfold nearest.
  destruct (Z.eq_dec (ulp_exp q1) (ulp_exp q2)) as [E|N].
  - rewrite E. now apply on_grid_mono.
  - assert (Lt : (ulp_exp q1 < ulp_exp q2)%Z) by lia.
    destruct (log2_floor_spec q1 H1) as [_ U1].
    destruct (log2_floor_spec q2 H2) as [L2 _].
    unfold ulp_exp in Lt |- *.
    set (e1 := log2_floor q1) in *. set (e2 := log2_floor q2) in *.
    apply Qle_trans with (pow2 e2).
    + apply on_grid_le_pow; [lia|].
      apply Qlt_le_weak. apply Qlt_le_trans with (pow2 (e1 + 1)); [exact U1|].
      apply pow2_le. lia.
    + apply on_grid_ge_pow; [lia | exact L2].
Qed.

Lemma nearest_nonneg (q : Q) : 0 <= q -> 0 <= nearest q.
Proof. apply on_grid_nonneg. Qed.

(** A mantissa below 2^53 on an exponent that binary64 has is kept. *)
Lemma nearest_exact (z j : Z) (q : Q) :
  (0 < z < 2 ^ 53)%Z -> (-1074 <= j)%Z ->
  q == inject_Z z * pow2 j -> nearest q == q.
Proof.
  intros [Z0 Z1] J E.
  assert (Hq : 0 < q).
  { rewrite E. apply Qmult_lt_0_compat; [|apply pow2_pos].
    now rewrite <- (Zlt_Qlt 0). }
  destruct (log2_floor_spec q Hq) as [L _].
  assert (U : q < pow2 (53 + j)).
  { rewrite E, pow2_plus. apply Qmult_lt_compat_r; [apply pow2_pos|].
    rewrite pow2_Z by lia. now rewrite <- Zlt_Qlt. }
  assert (A : pow2 (log2_floor q) < pow2 (53 + j))
    by (apply Qle_lt_trans with q; assumption).
  apply Qpower_lt_compat_l_inv in A; [|reflexivity].
  unfold nearest.
  rewrite (on_grid_comp _ _ _ E), on_grid_exact.
  - now symmetry.
  - unfold ulp_exp. lia.
Qed.

(** *** Rounding to binary64 *)


Lemma round_pos_cases (q : Q) :
  (nearest q < pow2 1024 /\ round_pos q = Fin (Qred (nearest q))) \/
  (pow2 1024 <= nearest q /\ round_pos q = Inf false).
Proof.
  unfold round_pos. destruct (Qle_bool (pow2 1024) (nearest q)) eqn:C.
  - right. split; [now apply Qle_bool_iff | reflexivity].
  - left. split; [|reflexivity].
    apply Qnot_le_lt. intros H. apply Qle_bool_iff in H. congruence.
Qed.

Lemma le_neg (x y : t) : le (neg x) (neg y) = le y x.
Proof.
  destruct x as [a|[|]|], y as [b|[|]|]; cbn [le neg]; try reflexivity.
  apply eq_true_iff_eq. rewrite !Qle_bool_iff. split; intros H; lra.
Qed.

Lemma round_pos_mono (q1 q2 : Q) :
  0 < q1 -> q1 <= q2 -> le (round_pos q1) (round_pos q2) = true.
Proof.
  intros H1 H. pose proof (nearest_mono q1 q2 H1 H) as M.
  destruct (round_pos_cases q1) as [[B1 ->]|[B1 ->]],
           (round_pos_cases q2) as [[B2 ->]|[B2 ->]]; cbn [le neg]; try reflexivity.
  - apply Qle_bool_iff. now rewrite !Qred_correct.
  - exfalso. apply (Qlt_irrefl (pow2 1024)).
    apply Qle_lt_trans with (nearest q1); [assumption|].
    now apply Qle_lt_trans with (nearest q2).
Qed.

Lemma round_pos_nonneg (q : Q) : 0 < q -> le (Fin 0) (round_pos q) = true.
Proof.
  intros H. destruct (round_pos_cases q) as [[_ ->]|[_ ->]]; cbn [le]; [|reflexivity].
  apply Qle_bool_iff. rewrite Qred_correct.
  apply nearest_nonneg. now apply Qlt_le_weak.
Qed.

Lemma le_trans (x y z : t) : le x y = true -> le y z = true -> le x z = true.
Proof.
  destruct x as [a|[|]|], y as [b|[|]|], z as [c|[|]|]; cbn [le orb negb];
    try reflexivity; try discriminate.
  rewrite !Qle_bool_iff. apply Qle_trans.
Qed.

Lemma round_zero (q : Q) : q == 0 -> round q = Fin 0.
Proof.
  intros E. unfold round.
  destruct (Qcompare_spec q 0); [reflexivity | exfalso; lra | exfalso; lra].
Qed.

Lemma round_pos_eq (q : Q) : 0 < q -> round q = round_pos q.
Proof.
  intros H. unfold round.
  destruct (Qcompare_spec q 0); [exfalso; lra | exfalso; lra | reflexivity].
Qed.

Lemma round_neg_eq (q : Q) : q < 0 -> round q = neg (round_pos (- q)).
Proof.
  intros H. unfold round.
  destruct (Qcompare_spec q 0); [exfalso; lra | reflexivity | exfalso; lra].
Qed.

Lemma round_nonneg (q : Q) : 0 <= q -> le (Fin 0) (round q) = true.
Proof.
  intros H. apply Qle_lteq in H. destruct H as [H|H].
  - rewrite round_pos_eq by assumption. now apply round_pos_nonneg.
  - rewrite round_zero by now symmetry. reflexivity.
Qed.

Lemma round_nonpos (q : Q) : q <= 0 -> le (round q) (Fin 0) = true.
Proof.
  intros H. apply Qle_lteq in H. destruct H as [H|H].
  - rewrite round_neg_eq by assumption.
    change (Fin 0) with (neg (Fin 0)). rewrite le_neg.
    apply round_pos_nonneg. lra.
  - now rewrite round_zero.
Qed.

Theorem round_mono (q1 q2 : Q) :
  q1 <= q2 -> le (round q1) (round q2) = true.
Proof.
  intros H.
  destruct (Qlt_le_dec 0 q1) as [P1|N1].
  - rewrite !round_pos_eq by lra. now apply round_pos_mono.
  - destruct (Qlt_le_dec q2 0) as [N2|P2].
    + rewrite !round_neg_eq by lra. rewrite le_neg.
      apply round_pos_mono; lra.
    + apply le_trans with (Fin 0);
        [now apply round_nonpos | now apply round_nonneg].
Qed.

Theorem round_exact (r : Q) : double r -> round r = Fin (Qred r).
Proof.
  intros (z & j & Hz & Hj & E & B).
  destruct (Qcompare_spec r 0) as [Z0|Neg|Pos].
  - rewrite round_zero by assumption. f_equal.
    change 0 with (Qred 0). now apply Qred_complete.
  - rewrite round_neg_eq by assumption.
    assert (Hz' : (z < 0)%Z).
    { destruct (Z_lt_le_dec z 0) as [L|G]; [assumption|exfalso].
      assert (0 <= r); [|lra]. rewrite E.
      apply Qmult_le_0_compat; [|apply Qlt_le_weak, pow2_pos].
      now rewrite <- (Zle_Qle 0). }
    assert (X : nearest (- r) == - r).
    { apply (nearest_exact (- z) j); [lia | assumption|].
      rewrite E, inject_Z_opp. ring. }
    destruct (round_pos_cases (- r)) as [[_ ->]|[O _]].
    + cbn [neg]. f_equal. rewrite <- Qred_opp. apply Qred_complete.
      rewrite X. ring.
    + exfalso. rewrite X in O. rewrite Qabs_neg in B by lra. lra.
  - rewrite round_pos_eq by assumption.
    assert (Hz' : (0 < z)%Z).
    { destruct (Z_lt_le_dec 0 z) as [L|G]; [assumption|exfalso].
      assert (r <= 0); [|lra]. rewrite E.
      setoid_replace (inject_Z z * pow2 j) with (- (inject_Z (- z) * pow2 j))
        by (rewrite inject_Z_opp; ring).
      assert (0 <= inject_Z (- z) * pow2 j); [|lra].
      apply Qmult_le_0_compat; [|apply Qlt_le_weak, pow2_pos].
      rewrite <- (Zle_Qle 0). lia. }
    assert (X : nearest r == r)
      by (apply (nearest_exact z j); [lia | assumption | assumption]).
    destruct (round_pos_cases r) as [[_ ->]|[O _]].
    + f_equal. now apply Qred_complete.
    + exfalso. rewrite X in O. rewrite Qabs_pos in B by lra. lra.
Qed.

(** Between two doubles the rounded value is a double between them. *)
Theorem round_between (lo hi q : Q) :
  double lo -> double hi -> lo <= q <= hi ->
  exists v, round q = Fin v /\ lo <= v <= hi.
Proof.
  intros Dlo Dhi [L H].
  pose proof (round_mono lo q L) as A. pose proof (round_mono q hi H) as B.
  rewrite (round_exact lo Dlo) in A. rewrite (round_exact hi Dhi) in B.
  destruct (round q) as [v|[|]|]; cbn [le negb] in A, B; try discriminate.
  exists v. split; [reflexivity|].
  apply Qle_bool_iff in A, B. rewrite Qred_correct in A, B. now split.
Qed.

End F64Facts.

(** ** The rounding against the Standard Library's IEEE 754 *)

(** On the quotients and products of the examples, [F64] yields the
    doubles that the Standard Library's binary64 operations yield. *)
Example rounding_agrees_with_spec_float :
  F64.of_spec_float
    (SFdiv Binary64.prec Binary64.emax
       (Binary64.float 50000000) (Binary64.float 12))
  = F64.round (50000000 / 12) /\
  F64.of_spec_float
    (SFdiv Binary64.prec Binary64.emax
       (Binary64.float 9007199254740991) (Binary64.float 23))
  = F64.round (9007199254740991 / 23) /\
  F64.of_spec_float
    (SFmul Binary64.prec Binary64.emax
       (SFdiv Binary64.prec Binary64.emax
          (Binary64.float 9007199254740991) (Binary64.float 23))
       (Binary64.float 12))
  = F64.mul (F64.round (9007199254740991 / 23)) (F64.Fin 12) /\
  F64.of_spec_float
    (SFadd Binary64.prec Binary64.emax
       (SFdiv Binary64.prec Binary64.emax
          (Binary64.float 1) (Binary64.float 10))
       (SFdiv Binary64.prec Binary64.emax
          (Binary64.float 2) (Binary64.float 10)))
  = F64.add (F64.round (1 / 10)) (F64.round (2 / 10)) /\
  F64.of_spec_float
    (SFsub Binary64.prec Binary64.emax
       (Binary64.float 9007199254740991) (Binary64.float 9007199254740989))
  = F64.sub (F64.Fin 9007199254740991) (F64.Fin 9007199254740989).
Proof. vm_compute. repeat split. Qed.

(** ** Doubles *)

Lemma double_scaled (z j : Z) :
  (Z.abs z < 2 ^ 53)%Z -> (-1074 <= j <= 970)%Z ->
  F64.double (inject_Z z * F64.pow2 j).
Proof.
  intros Hz Hj. exists z, j. repeat split; try easy; try lia.
  rewrite Qabs_Qmult.
  rewrite (Qabs_pos (F64.pow2 j)) by apply Qlt_le_weak, F64Facts.pow2_pos.
  apply Qlt_le_trans with (inject_Z (2 ^ 53) * F64.pow2 j).
  - apply Qmult_lt_compat_r; [apply F64Facts.pow2_pos|].
    change (Qabs (inject_Z z)) with (inject_Z (Z.abs z)).
    rewrite <- Zlt_Qlt. exact Hz.
  - rewrite <- F64Facts.pow2_Z by lia. rewrite <- F64Facts.pow2_plus.
    apply F64Facts.pow2_le. lia.
Qed.

Lemma double_Z (z : Z) : (Z.abs z < 2 ^ 53)%Z -> F64.double (inject_Z z).
Proof.
  intros Hz. destruct (double_scaled z 0 Hz ltac:(lia)) as (z' & j & A & B & C & D).
  exists z', j. repeat split; try easy.
  - rewrite <- C. unfold F64.pow2. cbn. ring.
  - revert D. unfold F64.pow2 at 1. cbn [Qpower]. now rewrite Qmult_1_r.
Qed.

Lemma double_pow2 (k : Z) : (-1074 <= k <= 1023)%Z -> F64.double (F64.pow2 k).
Proof.
  intros Hk. exists 1%Z, k. repeat split; try easy; try lia.
  - ring.
  - rewrite Qabs_pos by apply Qlt_le_weak, F64Facts.pow2_pos.
    apply F64Facts.pow2_lt. lia.
Qed.

Lemma double_opp (r : Q) : F64.double r -> F64.double (- r).
Proof.
  intros (z & j & A & B & C & D). exists (- z)%Z, j. repeat split; try easy.
  - lia.
  - rewrite C, inject_Z_opp. ring.
  - now rewrite Qabs_opp.
Qed.

(** A result of magnitude at most 2^k stays there when rounded. *)
Lemma round_within (q : Q) (k : Z) :
  (-1074 <= k <= 1023)%Z -> Qabs q <= F64.pow2 k ->
  exists v, F64.round q = F64.Fin v /\ Qabs v <= F64.pow2 k.
Proof.
  intros Hk Hq. apply Qabs_Qle_condition in Hq.
  destruct (F64Facts.round_between (- F64.pow2 k) (F64.pow2 k) q) as (v & E & B).
  - now apply double_opp, double_pow2.
  - now apply double_pow2.
  - exact Hq.
  - exists v. split; [exact E|]. now apply Qabs_Qle_condition.
Qed.

(** Rounding never yields not-a-number. *)
Lemma round_not_nan (q : Q) : F64.round q <> F64.NaN.
Proof.
  unfold F64.round, F64.round_pos.
  destruct (Qcompare q 0); try discriminate.
  - destruct (Qle_bool _ _); discriminate.
  - destruct (Qle_bool _ _); discriminate.
Qed.

Lemma bind_returns {A B : Type} (m : py_result A) (k : A -> py_result B) (b : B) :
  bind m k = Returns b -> exists a, m = Returns a /\ k a = Returns b.
Proof.
  destruct m as [a|e]; cbn; [|discriminate]. intros H. now exists a.
Qed.

(** ** The operators on Python numbers *)

(** *** No division by zero outside [/] *)

Lemma bind_no_zero_division {A B : Type} (m : py_result A)
    (k : A -> py_result B) :
  m <> Raises ZeroDivisionError ->
  (forall a, m = Returns a -> k a <> Raises ZeroDivisionError) ->
  bind m k <> Raises ZeroDivisionError.
Proof.
  intros Hm Hk. destruct m as [a|e]; cbn.
  - now apply Hk.
  - intros E. apply Hm. now inversion E.
Qed.

Lemma float_of_int_no_zero_division (z : Z) :
  PyNum.float_of_int z <> Raises ZeroDivisionError.
Proof.
  unfold PyNum.float_of_int. destruct (F64.round _); discriminate.
Qed.

Lemma to_float_no_zero_division (n : PyNum.t) :
  PyNum.to_float n <> Raises ZeroDivisionError.
Proof.
  destruct n; cbn; [apply float_of_int_no_zero_division|discriminate].
Qed.

Lemma arith_no_zero_division (f : Z -> Z -> Z) (g : F64.t -> F64.t -> F64.t)
    (a b : PyNum.t) :
  PyNum.arith f g a b <> Raises ZeroDivisionError.
Proof.
  pose proof (to_float_no_zero_division a) as Ha.
  pose proof (to_float_no_zero_division b) as Hb.
  destruct a as [x|x], b as [y|y]; cbn [PyNum.arith]; try discriminate;
    apply bind_no_zero_division; try assumption; intros u _;
    apply bind_no_zero_division; try assumption; intros v _; discriminate.
Qed.

Lemma int_no_zero_division (n : PyNum.t) :
  PyNum.int n <> Raises ZeroDivisionError.
Proof.
  destruct n as [z|[q|s|]]; discriminate.
Qed.

(** The double of a non-zero [int] is not zero. *)
Lemma round_int_nonzero (z : Z) :
  z <> 0%Z -> F64.is_zero (F64.round (inject_Z z)) = false.
Proof.
  intros Hz.
  assert (D1 : F64.round 1 = F64.Fin 1) by reflexivity.
  assert (D2 : F64.round (-1) = F64.Fin (-1)) by reflexivity.
  destruct (Z_lt_le_dec z 0) as [N|P].
  - assert (L : inject_Z z <= -1).
    { change (-1) with (inject_Z (-1)). rewrite <- Zle_Qle. lia. }
    apply F64Facts.round_mono in L. rewrite D2 in L.
    destruct (F64.round (inject_Z z)) as [v|s|]; cbn in *; try easy.
    apply Qle_bool_iff in L. apply not_true_is_false. intros E.
    apply Qeq_bool_iff in E. lra.
  - assert (L : 1 <= inject_Z z).
    { change 1 with (inject_Z 1). rewrite <- Zle_Qle. lia. }
    apply F64Facts.round_mono in L. rewrite D1 in L.
    destruct (F64.round (inject_Z z)) as [v|s|]; cbn in *; try easy.
    apply Qle_bool_iff in L. apply not_true_is_false. intros E.
    apply Qeq_bool_iff in E. lra.
Qed.

Lemma to_float_nonzero (b : PyNum.t) (y : F64.t) :
  F64.is_zero (PyNum.real b) = false -> PyNum.to_float b = Returns y ->
  F64.is_zero y = false.
Proof.
  destruct b as [z|x]; cbn [PyNum.real PyNum.to_float].
  - intros Hz E. unfold PyNum.float_of_int in E.
    assert (N : z <> 0%Z).
    { intros ->. discriminate. }
    pose proof (round_int_nonzero z N) as R.
    destruct (F64.round (inject_Z z)); try discriminate; now inversion E; subst.
  - intros Hx E. now inversion E; subst.
Qed.

(** [a / b] raises [ZeroDivisionError] only on a zero divisor. *)
Lemma truediv_no_zero_division (a b : PyNum.t) :
  F64.is_zero (PyNum.real b) = false ->
  PyNum.truediv a b <> Raises ZeroDivisionError.
Proof.
  intros Hb.
  assert (G : (x <- PyNum.to_float a ;; y <- PyNum.to_float b ;;
               if F64.is_zero y then Raises ZeroDivisionError
               else Returns (PyNum.Float (F64.div x y)))
              <> Raises ZeroDivisionError).
  { apply bind_no_zero_division; [apply to_float_no_zero_division|].
    intros x _. apply bind_no_zero_division; [apply to_float_no_zero_division|].
    intros y Hy. rewrite (to_float_nonzero b y Hb Hy). discriminate. }
  destruct a as [x|x], b as [y|y]; try exact G.
  cbn [PyNum.truediv]. cbn in Hb.
  destruct (Z.eqb_spec y 0) as [->|N]; [discriminate|].
  destruct (F64.round _); discriminate.
Qed.

Lemma truediv_int_no_zero_division (a : PyNum.t) (y : Z) :
  y <> 0%Z -> PyNum.truediv a (PyNum.Int y) <> Raises ZeroDivisionError.
Proof.
  intros N. apply truediv_no_zero_division. cbn.
  destruct y; try easy.
Qed.

(** A number that compares greater than zero is not zero. *)
Lemma gt_zero_nonzero (b : PyNum.t) :
  PyNum.gt b (PyNum.Int 0) = true -> F64.is_zero (PyNum.real b) = false.
Proof.
  unfold PyNum.gt, F64.lt. cbn [PyNum.real].
  destruct (PyNum.real b) as [q|s|]; cbn; try easy.
  intros H. apply andb_true_iff in H as [A B].
  apply negb_true_iff in B. apply not_true_is_false. intros E.
  apply Qeq_bool_iff in E. apply not_true_iff_false in B. apply B.
  apply Qle_bool_iff. rewrite E. apply Qle_refl.
Qed.

(** *** Magnitudes *)

Lemma within_weaken (n : PyNum.t) (j k : Z) :
  (j <= k)%Z -> PyNum.within j n -> PyNum.within k n.
Proof.
  intros L. pose proof (F64Facts.pow2_le j k L) as P.
  destruct n as [z|[q|s|]]; cbn; intros H; try easy; now apply Qle_trans with (F64.pow2 j).
Qed.

Lemma within_int (z k : Z) :
  (0 <= k)%Z -> (Z.abs z <= 2 ^ k)%Z -> PyNum.within k (PyNum.Int z).
Proof.
  intros Hk Hz. unfold PyNum.within.
  change (Qabs (inject_Z z)) with (inject_Z (Z.abs z)).
  rewrite F64Facts.pow2_Z by exact Hk. now rewrite <- Zle_Qle.
Qed.

Lemma float_of_int_within (z k : Z) :
  (-1074 <= k <= 1023)%Z -> Qabs (inject_Z z) <= F64.pow2 k ->
  exists v, PyNum.float_of_int z = Returns (F64.Fin v) /\ Qabs v <= F64.pow2 k.
Proof.
  intros Hk Hz. destruct (round_within _ k Hk Hz) as (v & E & B).
  exists v. unfold PyNum.float_of_int. now rewrite E.
Qed.

Lemma to_float_within (n : PyNum.t) (k : Z) :
  (-1074 <= k <= 1023)%Z -> PyNum.within k n ->
  exists v, PyNum.to_float n = Returns (F64.Fin v) /\ Qabs v <= F64.pow2 k.
Proof.
  intros Hk. destruct n as [z|[q|s|]]; cbn; try easy.
  - now apply float_of_int_within.
  - intros H. now exists q.
Qed.

Lemma Qabs_mult_le (u v : Q) (j k : Z) :
  Qabs u <= F64.pow2 j -> Qabs v <= F64.pow2 k ->
  Qabs (u * v) <= F64.pow2 (j + k).
Proof.
  intros Hu Hv. rewrite Qabs_Qmult, F64Facts.pow2_plus.
  pose proof (Qabs_nonneg u). pose proof (Qabs_nonneg v).
  pose proof (F64Facts.pow2_pos j). pose proof (F64Facts.pow2_pos k).
  apply Qle_trans with (F64.pow2 j * Qabs v).
  - apply Qmult_le_compat_r; assumption.
  - apply Qmult_le_l; assumption.
Qed.

Lemma Qabs_plus_le (u v : Q) (j k m : Z) :
  (j < m)%Z -> (k < m)%Z ->
  Qabs u <= F64.pow2 j -> Qabs v <= F64.pow2 k ->
  Qabs (u + v) <= F64.pow2 m.
Proof.
  intros Lj Lk Hu Hv.
  pose proof (Qabs_triangle u v) as T.
  pose proof (F64Facts.pow2_le j (m - 1) ltac:(lia)) as Pj.
  pose proof (F64Facts.pow2_le k (m - 1) ltac:(lia)) as Pk.
  assert (E : F64.pow2 m == F64.pow2 (m - 1) + F64.pow2 (m - 1)).
  { replace m with ((m - 1) + 1)%Z at 1 by lia. rewrite F64Facts.pow2_plus.
    change (F64.pow2 1) with 2. ring. }
  rewrite E. lra.
Qed.

Lemma Qabs_div_le (u v : Q) (k : Z) :
  Qabs u <= F64.pow2 k -> 1 <= Qabs v -> Qabs (u / v) <= F64.pow2 k.
Proof.
  intros Hu Hv. unfold Qdiv. rewrite Qabs_Qmult, Qabs_Qinv.
  apply Qle_shift_div_r; [lra|].
  pose proof (F64Facts.pow2_pos k) as P.
  apply Qle_trans with (F64.pow2 k * 1); [lra|].
  apply Qmult_le_l; assumption.
Qed.

(** [a * b] returns when the magnitudes allow. *)
Lemma mul_within (a b : PyNum.t) (j k : Z) :
  PyNum.within j a -> PyNum.within k b ->
  (0 <= j)%Z -> (0 <= k)%Z -> (j + k <= 1023)%Z ->
  exists c, PyNum.mul a b = Returns c /\ PyNum.within (j + k) c.
Proof.
  intros Ha Hb Hj Hk Hjk.
  assert (G : exists c,
    (x <- PyNum.to_float a ;; y <- PyNum.to_float b ;;
     Returns (PyNum.Float (F64.mul x y))) = Returns c /\
    PyNum.within (j + k) c).
  { destruct (to_float_within a j ltac:(lia) Ha) as (u & Eu & Bu).
    destruct (to_float_within b k ltac:(lia) Hb) as (v & Ev & Bv).
    rewrite Eu, Ev. cbn [bind F64.mul].
    destruct (round_within (u * v) (j + k) ltac:(lia)) as (w & Ew & Bw).
    - now apply Qabs_mult_le.
    - exists (PyNum.Float (F64.Fin w)). now rewrite Ew. }
  destruct a as [x|x], b as [y|y]; try exact G.
  exists (PyNum.Int (x * y)). split; [reflexivity|].
  unfold PyNum.within in *. rewrite inject_Z_mult. now apply Qabs_mult_le.
Qed.

(** [a + b] and [a - b] likewise. *)
Lemma add_within (a b : PyNum.t) (j k m : Z) :
  PyNum.within j a -> PyNum.within k b ->
  (0 <= j < m)%Z -> (0 <= k < m)%Z -> (m <= 1023)%Z ->
  exists c, PyNum.add a b = Returns c /\ PyNum.within m c.
Proof.
  intros Ha Hb Hj Hk Hm.
  assert (G : exists c,
    (x <- PyNum.to_float a ;; y <- PyNum.to_float b ;;
     Returns (PyNum.Float (F64.add x y))) = Returns c /\
    PyNum.within m c).
  { destruct (to_float_within a j ltac:(lia) Ha) as (u & Eu & Bu).
    destruct (to_float_within b k ltac:(lia) Hb) as (v & Ev & Bv).
    rewrite Eu, Ev. cbn [bind F64.add].
    destruct (round_within (u + v) m ltac:(lia)) as (w & Ew & Bw).
    - now apply Qabs_plus_le with j k.
    - exists (PyNum.Float (F64.Fin w)). now rewrite Ew. }
  destruct a as [x|x], b as [y|y]; try exact G.
  exists (PyNum.Int (x + y)). split; [reflexivity|].
  unfold PyNum.within in *. rewrite inject_Z_plus. now apply Qabs_plus_le with j k.
Qed.

Lemma sub_within (a b : PyNum.t) (j k m : Z) :
  PyNum.within j a -> PyNum.within k b ->
  (0 <= j < m)%Z -> (0 <= k < m)%Z -> (m <= 1023)%Z ->
  exists c, PyNum.sub a b = Returns c /\ PyNum.within m c.
Proof.
  intros Ha Hb Hj Hk Hm.
  assert (G : exists c,
    (x <- PyNum.to_float a ;; y <- PyNum.to_float b ;;
     Returns (PyNum.Float (F64.sub x y))) = Returns c /\
    PyNum.within m c).
  { destruct (to_float_within a j ltac:(lia) Ha) as (u & Eu & Bu).
    destruct (to_float_within b k ltac:(lia) Hb) as (v & Ev & Bv).
    rewrite Eu, Ev. cbn [bind F64.sub F64.add F64.neg].
    destruct (round_within (u + - v) m ltac:(lia)) as (w & Ew & Bw).
    - apply Qabs_plus_le with j k; try lia; try assumption.
      now rewrite Qabs_opp.
    - exists (PyNum.Float (F64.Fin w)). now rewrite Ew. }
  destruct a as [x|x], b as [y|y]; try exact G.
  exists (PyNum.Int (x - y)). split; [reflexivity|].
  unfold PyNum.within in *. unfold Z.sub. rewrite inject_Z_plus, inject_Z_opp.
  apply Qabs_plus_le with j k; try lia; try assumption.
  now rewrite Qabs_opp.
Qed.

(** The double of a small positive [int] is at least one. *)
Lemma to_float_small (y : Z) :
  (1 <= y <= 64)%Z ->
  exists v, PyNum.to_float (PyNum.Int y) = Returns (F64.Fin v) /\
            1 <= v <= 64.
Proof.
  intros Hy. cbn. unfold PyNum.float_of_int.
  destruct (F64Facts.round_between 1 64 (inject_Z y)) as (v & E & B).
  - apply (double_Z 1). reflexivity.
  - apply (double_Z 64). reflexivity.
  - change 1 with (inject_Z 1). change 64 with (inject_Z 64).
    rewrite <- !Zle_Qle. exact Hy.
  - exists v. now rewrite E.
Qed.

(** [a / y] by a small positive [int] returns, no larger than [a]. *)
Lemma truediv_small_within (a : PyNum.t) (y k : Z) :
  PyNum.within k a -> (0 <= k <= 1023)%Z -> (1 <= y <= 64)%Z ->
  exists c, PyNum.truediv a (PyNum.Int y) = Returns c /\ PyNum.within k c.
Proof.
  intros Ha Hk Hy. destruct a as [x|[u|s|]]; cbn in Ha; try easy.
  - cbn [PyNum.truediv]. destruct (Z.eqb_spec y 0) as [->|N]; [lia|].
    destruct (round_within (inject_Z x / inject_Z y) k ltac:(lia))
      as (w & Ew & Bw).
    + apply Qabs_div_le; [exact Ha|].
      change (Qabs (inject_Z y)) with (inject_Z (Z.abs y)).
      change 1 with (inject_Z 1). rewrite <- Zle_Qle. lia.
    + exists (PyNum.Float (F64.Fin w)). now rewrite Ew.
  - destruct (to_float_small y Hy) as (v & Ev & Bv).
    unfold PyNum.truediv. rewrite Ev. cbn [PyNum.to_float bind F64.is_zero].
    assert (Z : Qeq_bool v 0 = false).
    { apply not_true_is_false. intros E. apply Qeq_bool_iff in E. lra. }
    rewrite Z. cbn [F64.div].
    destruct (round_within (u / v) k ltac:(lia)) as (w & Ew & Bw).
    + apply Qabs_div_le; [exact Ha|]. rewrite Qabs_pos; lra.
    + exists (PyNum.Float (F64.Fin w)). now rewrite Ew.
Qed.

(** [max(0, b)] is no larger than [b]. *)
Lemma max_within (b : PyNum.t) (k : Z) :
  PyNum.within k b -> PyNum.within k (PyNum.max (PyNum.Int 0) b).
Proof.
  intros Hb. unfold PyNum.max. destruct (PyNum.gt _ _); [exact Hb|].
  cbn. apply Qlt_le_weak, F64Facts.pow2_pos.
Qed.

(** The cast of a finite number returns. *)
Lemma int_within (n : PyNum.t) (k : Z) :
  PyNum.within k n -> exists z, PyNum.int n = Returns z.
Proof.
  destruct n as [z|[q|s|]]; cbn; try easy; intros _.
  - now exists z.
  - now exists (Py.int q).
Qed.

(** A quotient of finite numbers by one that is not zero is a [float];
    it may be infinite. *)
Lemma truediv_within_returns (a b : PyNum.t) (j k : Z) :
  PyNum.within j a -> PyNum.within k b ->
  (0 <= j <= 1023)%Z -> (0 <= k <= 1023)%Z ->
  F64.is_zero (PyNum.real b) = false ->
  exists x, PyNum.truediv a b = Returns (PyNum.Float x).
Proof.
  intros Ha Hb Hj Hk Nz.
  assert (G : exists x,
    (x <- PyNum.to_float a ;; y <- PyNum.to_float b ;;
     if F64.is_zero y then Raises ZeroDivisionError
     else Returns (PyNum.Float (F64.div x y))) = Returns (PyNum.Float x)).
  { destruct (to_float_within a j ltac:(lia) Ha) as (u & Eu & Bu).
    destruct (to_float_within b k ltac:(lia) Hb) as (v & Ev & Bv).
    rewrite Eu, Ev. cbn [bind].
    rewrite (to_float_nonzero b _ Nz Ev). eauto. }
  destruct a as [x|x], b as [y|y]; try exact G.
  cbn [PyNum.truediv]. cbn in Nz, Ha.
  destruct (Z.eqb_spec y 0) as [->|N]; [discriminate|].
  destruct (round_within (inject_Z x / inject_Z y) j ltac:(lia))
    as (w & Ew & Bw).
  - apply Qabs_div_le; [exact Ha|].
    change (Qabs (inject_Z y)) with (inject_Z (Z.abs y)).
    change 1 with (inject_Z 1). rewrite <- Zle_Qle. lia.
  - rewrite Ew. eauto.
Qed.

(** A [float] times a small [int] returns. *)
Lemma mul_float_int_returns (x : F64.t) (z : Z) :
  (Z.abs z <= 2 ^ 53)%Z ->
  exists c, PyNum.mul (PyNum.Float x) (PyNum.Int z) = Returns c.
Proof.
  intros Hz.
  destruct (to_float_within (PyNum.Int z) 53 ltac:(lia)) as (v & Ev & _).
  - now apply within_int.
  - unfold PyNum.mul, PyNum.arith. rewrite Ev. cbn. eauto.
Qed.

Lemma add_no_zero_division (a b : PyNum.t) :
  PyNum.add a b <> Raises ZeroDivisionError.
Proof. apply arith_no_zero_division. Qed.

Lemma sub_no_zero_division (a b : PyNum.t) :
  PyNum.sub a b <> Raises ZeroDivisionError.
Proof. apply arith_no_zero_division. Qed.

Lemma mul_no_zero_division (a b : PyNum.t) :
  PyNum.mul a b <> Raises ZeroDivisionError.
Proof. apply arith_no_zero_division. Qed.

Ltac no_zero_division :=
  repeat first
    [ apply add_no_zero_division
    | apply sub_no_zero_division
    | apply mul_no_zero_division
    | apply int_no_zero_division
    | apply truediv_int_no_zero_division; lia
    | apply bind_no_zero_division; [ | intros ? _ ]
    | discriminate ].

(** A value that was returned is passed on. *)
Lemma bind_unit {A B : Type} (a : A) (k : A -> py_result B) :
  bind (Returns a) k = k a.
Proof. reflexivity. Qed.

Ltac within_of a :=
  match goal with H : PyNum.within _ a |- _ => constr:(H) end.

Ltac settle W :=
  match type of W with
  | PyNum.within ?e ?c =>
      let e' := eval cbv in e in change (PyNum.within e' c) in W
  end.

Ltac returns_step :=
  match goal with
  | |- exists o, bind ?m _ = Returns o /\ _ =>
    let c := fresh "v" in
    let E := fresh "E" in
    let W := fresh "W" in
    lazymatch m with
    | Returns _ => rewrite bind_unit; cbv beta
    | PyNum.mul ?a ?b =>
        let Ha := within_of a in
        let Hb := within_of b in
        destruct (mul_within a b _ _ Ha Hb ltac:(lia) ltac:(lia) ltac:(lia))
          as (c & E & W);
        rewrite E, bind_unit; cbv beta; settle W
    | PyNum.add ?a ?b =>
        let Ha := within_of a in
        let Hb := within_of b in
        match type of Ha with PyNum.within ?j _ =>
        match type of Hb with PyNum.within ?k _ =>
        destruct (add_within a b j k (Z.max j k + 1) Ha Hb
                    ltac:(lia) ltac:(lia) ltac:(lia))
          as (c & E & W)
        end end;
        rewrite E, bind_unit; cbv beta; settle W
    | PyNum.sub ?a ?b =>
        let Ha := within_of a in
        let Hb := within_of b in
        match type of Ha with PyNum.within ?j _ =>
        match type of Hb with PyNum.within ?k _ =>
        destruct (sub_within a b j k (Z.max j k + 1) Ha Hb
                    ltac:(lia) ltac:(lia) ltac:(lia))
          as (c & E & W)
        end end;
        rewrite E, bind_unit; cbv beta; settle W
    | PyNum.truediv ?a (PyNum.Int ?y) =>
        let Ha := within_of a in
        destruct (truediv_small_within a y _ Ha ltac:(lia) ltac:(lia))
          as (c & E & W);
        rewrite E, bind_unit; cbv beta
    | PyNum.int ?a =>
        let Ha := within_of a in
        destruct (int_within a _ Ha) as (c & E);
        rewrite E, bind_unit; cbv beta
    end
  end.

(** ** Reading a returned call backwards *)

Ltac invert_binds H :=
  repeat (let a := fresh "x" in
          let E := fresh "E" in
          apply bind_returns in H; destruct H as (a & E & H)).

(** From [calculate_costs i = Returns o]: one equation for every operator
    of lines 273-305 and every cast of lines 308-323. *)
Ltac unroll H :=
  let l := fresh "l" in
  let L := fresh "L" in
  apply bind_returns in H; destruct H as (l & L & H);
  unfold Rounded.calculate_locals in L; cbv zeta in L;
  invert_binds L; injection L as <-;
  unfold Rounded.result_dict in H;
  cbn [Rounded.Locals.annual_glab_capacity
       Rounded.Locals.total_optical_modules
       Rounded.Locals.monthly_optical_modules
       Rounded.Locals.daily_optical_modules
       Rounded.Locals.required_glab_per_month
       Rounded.Locals.production_feasible
       Rounded.Locals.capacity_shortage
       Rounded.Locals.optical_quartz_cost_per_block
       Rounded.Locals.optical_block_manufacturing_cost
       Rounded.Locals.total_material_cost
       Rounded.Locals.total_labor_cost
       Rounded.Locals.annual_depreciation
       Rounded.Locals.depreciation_cost
       Rounded.Locals.total_production_cost
       Rounded.Locals.annual_optical_modules
       Rounded.Locals.annual_revenue
       Rounded.Locals.annual_production_cost
       Rounded.Locals.annual_profit
       Rounded.Locals.profit_margin] in H;
  invert_binds H; injection H as <-;
  cbn [Rounded.Result.annual_glab_capacity
       Rounded.Result.total_optical_modules
       Rounded.Result.monthly_optical_modules
       Rounded.Result.daily_optical_modules
       Rounded.Result.production_feasible
       Rounded.Result.capacity_shortage
       Rounded.Result.optical_block_manufacturing_cost
       Rounded.Result.total_material_cost
       Rounded.Result.total_labor_cost
       Rounded.Result.total_production_cost
       Rounded.Result.annual_depreciation
       Rounded.Result.depreciation_cost
       Rounded.Result.annual_revenue
       Rounded.Result.annual_production_cost
       Rounded.Result.annual_profit
       Rounded.Result.profit_margin].

(** An operator evaluated twice returns the same value twice. *)
Ltac dedup :=
  repeat match goal with
         | E : ?m = Returns ?a, E' : ?m = Returns ?b |- _ =>
             rewrite E in E'; first [injection E' as <- | clear E']
         end.

(** Rewrite the operators of a chain with the equations at hand. *)
Ltac replay :=
  repeat match goal with
         | E : ?m = Returns _ |- context [bind ?m _] =>
             rewrite E; cbn [bind]
         end.

(** ** The total production cost *)

(** C1, the counterexample: six months, a salary of 40000001 won and a
    setup cost of 30000005 won over five years.  Labour is 20000000.5 and
    depreciation 3000000.5 before the casts; the returned total is one
    more than the sum of the three returned components. *)
Example total_not_sum_of_returned_components :
  Rounded.valid_input Rounded.half_year_plan /\
  exists o, Rounded.calculate_costs Rounded.half_year_plan = Returns o /\
    o.(Rounded.Result.total_material_cost) = 1447200000%Z /\
    o.(Rounded.Result.total_labor_cost) = 20000000%Z /\
    o.(Rounded.Result.depreciation_cost) = 3000000%Z /\
    o.(Rounded.Result.total_production_cost) = 1470200001%Z /\
    o.(Rounded.Result.total_production_cost)
    <> (o.(Rounded.Result.total_material_cost)
        + o.(Rounded.Result.total_labor_cost)
        + o.(Rounded.Result.depreciation_cost))%Z.
Proof.
  split.
  - unfold Rounded.valid_input; cbn. repeat split; try lia; discriminate.
  - eexists. split; [vm_compute; reflexivity|]. cbn.
    repeat split. discriminate.
Qed.

(** C1, amended: the returned total is the cast of the binary64 sum of the
    three costs as they stand before their own casts, each given here by
    the operators that produce it from the arguments; the three returned
    components are the casts of the same three values. *)
Theorem total_production_cost_casts_binary64_sum
    (i : Rounded.inputs) (o : Rounded.Result.t) :
  Rounded.calculate_costs i = Returns o ->
  exists material labor depreciation total : PyNum.t,
    (quartz <- PyNum.mul i.(Rounded.optical_quartz_price) (PyNum.Int 16) ;;
     block_and_quartz <- PyNum.add i.(Rounded.optical_block_price) quartz ;;
     unit <- PyNum.add block_and_quartz i.(Rounded.other_parts_price) ;;
     PyNum.mul unit (PyNum.Int (i.(Rounded.target_glab_sales) * 12)))
    = Returns material /\
    (salaries <- PyNum.mul i.(Rounded.annual_salary)
                   (PyNum.Int i.(Rounded.required_workers)) ;;
     years <- PyNum.truediv (PyNum.Int i.(Rounded.production_period_months))
                (PyNum.Int 12) ;;
     PyNum.mul salaries years)
    = Returns labor /\
    (annual <- PyNum.truediv i.(Rounded.initial_setup_cost)
                 (PyNum.Int i.(Rounded.depreciation_period_years)) ;;
     years <- PyNum.truediv (PyNum.Int i.(Rounded.production_period_months))
                (PyNum.Int 12) ;;
     PyNum.mul annual years)
    = Returns depreciation /\
    (material_and_labor <- PyNum.add material labor ;;
     PyNum.add material_and_labor depreciation)
    = Returns total /\
    PyNum.int material = Returns o.(Rounded.Result.total_material_cost) /\
    PyNum.int labor = Returns o.(Rounded.Result.total_labor_cost) /\
    PyNum.int depreciation = Returns o.(Rounded.Result.depreciation_cost) /\
    PyNum.int total = Returns o.(Rounded.Result.total_production_cost).
Proof.
  intros H. unfold Rounded.calculate_costs in H. unroll H.
  cbn in E0. injection E0 as <-. dedup.
  exists x10, x13, x16, x18. replay. repeat split; assumption.
Qed.

Lemma total_production_cost_casts_binary64_sum_witness :
  exists material labor depreciation total : PyNum.t,
    (quartz <- PyNum.mul (PyNum.Int 3750) (PyNum.Int 16) ;;
     block_and_quartz <- PyNum.add (PyNum.Int 140000) quartz ;;
     unit <- PyNum.add block_and_quartz (PyNum.Int 1000) ;;
     PyNum.mul unit (PyNum.Int (600 * 12)))
    = Returns material /\
    (salaries <- PyNum.mul (PyNum.Int 40000001) (PyNum.Int 1) ;;
     years <- PyNum.truediv (PyNum.Int 6) (PyNum.Int 12) ;;
     PyNum.mul salaries years)
    = Returns labor /\
    (annual <- PyNum.truediv (PyNum.Int 30000005) (PyNum.Int 5) ;;
     years <- PyNum.truediv (PyNum.Int 6) (PyNum.Int 12) ;;
     PyNum.mul annual years)
    = Returns depreciation /\
    (material_and_labor <- PyNum.add material labor ;;
     PyNum.add material_and_labor depreciation)
    = Returns total /\
    PyNum.int material = Returns 1447200000%Z /\
    PyNum.int labor = Returns 20000000%Z /\
    PyNum.int depreciation = Returns 3000000%Z /\
    PyNum.int total = Returns 1470200001%Z.
Proof.
  apply (total_production_cost_casts_binary64_sum Rounded.half_year_plan
           {| Rounded.Result.annual_glab_capacity := Rounded.float 1200;
              Rounded.Result.total_optical_modules := 7200;
              Rounded.Result.monthly_optical_modules := 1200;
              Rounded.Result.daily_optical_modules := 40;
              Rounded.Result.production_feasible := true;
              Rounded.Result.capacity_shortage := 0;
              Rounded.Result.optical_block_manufacturing_cost := 201000;
              Rounded.Result.total_material_cost := 1447200000;
              Rounded.Result.total_labor_cost := 20000000;
              Rounded.Result.total_production_cost := 1470200001;
              Rounded.Result.annual_depreciation := 6000001;
              Rounded.Result.depreciation_cost := 3000000;
              Rounded.Result.annual_revenue := 57600000000;
              Rounded.Result.annual_production_cost := 2940400002;
              Rounded.Result.annual_profit := 54659599998;
              Rounded.Result.profit_margin :=
                Rounded.float (1669412937982945 # 17592186044416) |}).
  vm_compute. reflexivity.
Defined.

(** ** Feasibility and the shortage *)

(** Strictly greater excludes less-or-equal. *)
Lemma gt_not_le (a b : PyNum.t) :
  PyNum.gt a b = true -> PyNum.le a b = false.
Proof.
  unfold PyNum.gt, PyNum.le, F64.lt. intros H.
  apply andb_true_iff in H as [_ H]. now apply negb_true_iff in H.
Qed.

(** The cast of a positive value is positive from one on. *)
Lemma int_positive_iff (q : Q) : 0 <= q -> ((0 < Py.int q)%Z <-> 1 <= q).
Proof.
  intros P. rewrite int_nonneg by exact P.
  pose proof (Qfloor_le q) as L. pose proof (Qlt_floor q) as U.
  rewrite inject_Z_plus in U. change (inject_Z 1) with 1 in U.
  split.
  - intros F. assert (F' : inject_Z 1 <= inject_Z (Qfloor q))
      by (rewrite <- Zle_Qle; lia).
    change (inject_Z 1) with 1 in F'. lra.
  - intros F. assert (F' : inject_Z 0 < inject_Z (Qfloor q + 1)).
    { rewrite inject_Z_plus. change (inject_Z 1) with 1.
      change (inject_Z 0) with 0. lra. }
    rewrite <- Zlt_Qlt in F'.
    assert (N : Qfloor q <> 0%Z).
    { intros Z. rewrite Z in U. change (inject_Z 0) with 0 in U. lra. }
    lia.
Qed.

(** The returned shortage, from the shortfall of line 285. *)
Lemma shortage_cast (shortfall : PyNum.t) (z : Z) :
  PyNum.int (PyNum.max (PyNum.Int 0) shortfall) = Returns z ->
  (0 <= z)%Z /\
  ((0 < z)%Z <-> PyNum.le (PyNum.Int 1) shortfall = true).
Proof.
  unfold PyNum.max, PyNum.gt, PyNum.le, F64.lt.
  destruct shortfall as [y|[q|[|]|]]; cbn [PyNum.real F64.le negb andb].
  - change (inject_Z 0) with 0. change (inject_Z 1) with 1.
    destruct (Qle_bool 0 (inject_Z y)) eqn:A;
      destruct (Qle_bool (inject_Z y) 0) eqn:B; cbn [andb negb PyNum.int];
      intros E; inversion E; subst; clear E.
    + split; [lia|]. split; [lia|]. intros C. apply Qle_bool_iff in B, C. lra.
    + apply Qle_bool_iff in A. change 0 with (inject_Z 0) in A.
      rewrite <- Zle_Qle in A. split; [exact A|].
      rewrite Qle_bool_iff. change 1 with (inject_Z 1). rewrite <- Zle_Qle.
      apply not_true_iff_false in B. rewrite Qle_bool_iff in B.
      change 0 with (inject_Z 0) in B. rewrite <- Zle_Qle in B. lia.
    + split; [lia|]. split; [lia|]. intros C. apply Qle_bool_iff in B, C. lra.
    + split; [lia|]. split; [lia|]. intros C.
      apply not_true_iff_false in A. rewrite Qle_bool_iff in A.
      apply Qle_bool_iff in C. lra.
  - change (inject_Z 0) with 0. change (inject_Z 1) with 1.
    destruct (Qle_bool 0 q) eqn:A;
      destruct (Qle_bool q 0) eqn:B; cbn [andb negb PyNum.int];
      intros E; inversion E; subst; clear E.
    + split; [lia|]. split; [lia|]. intros C. apply Qle_bool_iff in B, C. lra.
    + apply Qle_bool_iff in A. split; [now apply int_nonneg_le|].
      rewrite Qle_bool_iff. now apply int_positive_iff.
    + split; [lia|]. split; [lia|]. intros C. apply Qle_bool_iff in B, C. lra.
    + split; [lia|]. split; [lia|]. intros C.
      apply not_true_iff_false in A. rewrite Qle_bool_iff in A.
      apply Qle_bool_iff in C. lra.
  - cbn. intros E. inversion E. split; [lia|]. split; [lia|discriminate].
  - cbn. discriminate.
  - cbn. intros E. inversion E. split; [lia|]. split; [lia|discriminate].
Qed.

(** C2, the counterexample: a capacity of 49.96875 a month against the
    required 50.  The plan is not feasible, and the shortfall of 0.375
    units is returned as a shortage of 0. *)
Example infeasible_plan_with_zero_shortage :
  Rounded.valid_input Rounded.near_capacity_plan /\
  (exists required,
     PyNum.truediv (PyNum.Int 600) (PyNum.Int 12) = Returns required /\
     PyNum.gt required
       Rounded.near_capacity_plan.(Rounded.monthly_glab_capacity) = true) /\
  exists o, Rounded.calculate_costs Rounded.near_capacity_plan = Returns o /\
    o.(Rounded.Result.production_feasible) = false /\
    o.(Rounded.Result.capacity_shortage) = 0%Z.
Proof.
  split; [|split].
  - unfold Rounded.valid_input; cbn. repeat split; try lia; discriminate.
  - eexists. split; vm_compute; reflexivity.
  - eexists. split; [vm_compute; reflexivity|]. cbn. split; reflexivity.
Qed.

(** C2, amended: when the required monthly rate exceeds the capacity the
    plan is reported infeasible; the shortage is the cast of
    [max(0, shortfall)], never negative, and positive exactly when the
    binary64 shortfall of line 285 is at least one unit. *)
Theorem infeasible_plan_shortage
    (i : Rounded.inputs) (o : Rounded.Result.t) (required : PyNum.t) :
  Rounded.calculate_costs i = Returns o ->
  PyNum.truediv (PyNum.Int i.(Rounded.target_glab_sales))
                (PyNum.Int i.(Rounded.production_period_months))
  = Returns required ->
  PyNum.gt required i.(Rounded.monthly_glab_capacity) = true ->
  exists shortfall : PyNum.t,
    (annual <- PyNum.mul i.(Rounded.monthly_glab_capacity) (PyNum.Int 12) ;;
     months <- PyNum.mul annual
                 (PyNum.Int i.(Rounded.production_period_months)) ;;
     over_period <- PyNum.truediv months (PyNum.Int 12) ;;
     PyNum.sub (PyNum.Int i.(Rounded.target_glab_sales)) over_period)
    = Returns shortfall /\
    o.(Rounded.Result.production_feasible) = false /\
    PyNum.int (PyNum.max (PyNum.Int 0) shortfall)
    = Returns o.(Rounded.Result.capacity_shortage) /\
    (0 <= o.(Rounded.Result.capacity_shortage))%Z /\
    ((0 < o.(Rounded.Result.capacity_shortage))%Z
     <-> PyNum.le (PyNum.Int 1) shortfall = true).
Proof.
  intros H R G. unfold Rounded.calculate_costs in H. unroll H.
  rewrite R in E3. injection E3 as <-.
  exists x6. replay.
  split; [exact E6|]. split; [now apply gt_not_le|].
  split; [exact E31|]. now apply shortage_cast.
Qed.

Lemma infeasible_plan_shortage_witness :
  exists o, Rounded.calculate_costs Rounded.short_plan = Returns o /\
  exists shortfall : PyNum.t,
    (annual <- PyNum.mul (Rounded.float 49) (PyNum.Int 12) ;;
     months <- PyNum.mul annual (PyNum.Int 12) ;;
     over_period <- PyNum.truediv months (PyNum.Int 12) ;;
     PyNum.sub (PyNum.Int 600) over_period)
    = Returns shortfall /\
    o.(Rounded.Result.production_feasible) = false /\
    PyNum.int (PyNum.max (PyNum.Int 0) shortfall)
    = Returns o.(Rounded.Result.capacity_shortage) /\
    (0 <= o.(Rounded.Result.capacity_shortage))%Z /\
    ((0 < o.(Rounded.Result.capacity_shortage))%Z
     <-> PyNum.le (PyNum.Int 1) shortfall = true).
Proof.
  eexists. split; [vm_compute; reflexivity|].
  apply (infeasible_plan_shortage Rounded.short_plan _ (Rounded.float 50));
    vm_compute; reflexivity.
Defined.

(** ** Results that are [float]s *)

Lemma arith_float_l (f : Z -> Z -> Z) (g : F64.t -> F64.t -> F64.t)
    (x : F64.t) (b c : PyNum.t) :
  PyNum.arith f g (PyNum.Float x) b = Returns c -> exists y, c = PyNum.Float y.
Proof.
  unfold PyNum.arith. cbn [PyNum.to_float bind].
  destruct (PyNum.to_float b) as [y|e]; cbn [bind]; [|discriminate].
  intros E. injection E as <-. eauto.
Qed.

Lemma arith_float_r (f : Z -> Z -> Z) (g : F64.t -> F64.t -> F64.t)
    (a : PyNum.t) (y : F64.t) (c : PyNum.t) :
  PyNum.arith f g a (PyNum.Float y) = Returns c -> exists z, c = PyNum.Float z.
Proof.
  destruct a as [x|x]; [|apply arith_float_l].
  unfold PyNum.arith. cbn [PyNum.to_float].
  destruct (PyNum.float_of_int x) as [u|e]; cbn [bind]; [|discriminate].
  intros E. injection E as <-. eauto.
Qed.

Lemma truediv_float (a b c : PyNum.t) :
  PyNum.truediv a b = Returns c -> exists y, c = PyNum.Float y.
Proof.
  assert (G : (x <- PyNum.to_float a ;; y <- PyNum.to_float b ;;
               if F64.is_zero y then Raises ZeroDivisionError
               else Returns (PyNum.Float (F64.div x y))) = Returns c ->
              exists y, c = PyNum.Float y).
  { destruct (PyNum.to_float a) as [x|e]; cbn [bind]; [|discriminate].
    destruct (PyNum.to_float b) as [y|e]; cbn [bind]; [|discriminate].
    destruct (F64.is_zero y); [discriminate|].
    intros E. injection E as <-. eauto. }
  destruct a as [x|x], b as [y|y]; try exact G.
  cbn [PyNum.truediv]. destruct (y =? 0)%Z; [discriminate|].
  destruct (F64.round _) as [v|s|]; try discriminate;
    intros E; injection E as <-; eauto.
Qed.

(** A [float] that was cast is finite. *)
Lemma int_float_finite (x : F64.t) (z : Z) :
  PyNum.int (PyNum.Float x) = Returns z ->
  exists q, x = F64.Fin q /\ z = Py.int q.
Proof.
  destruct x as [q|s|]; cbn; try discriminate.
  intros E. inversion E. now exists q.
Qed.

(** ** The annual profit *)

(** The cast truncates toward zero: the floor, or one above it on a
    negative value that is not an integer. *)
Lemma int_floor_or_next (d : Q) :
  Py.int d
  = if Qle_bool 0 d || Qeq_bool d (inject_Z (Qfloor d))
    then Qfloor d else (Qfloor d + 1)%Z.
Proof.
  destruct (Qle_bool 0 d) eqn:P; cbn [orb].
  - apply Qle_bool_iff in P. now apply int_nonneg.
  - apply not_true_iff_false in P. rewrite Qle_bool_iff in P.
    assert (N : d <= 0) by lra.
    rewrite int_nonpos by exact N.
    destruct (Qeq_bool d (inject_Z (Qfloor d))) eqn:I.
    + apply Qeq_bool_iff in I. now apply Qceiling_integral.
    + apply Qceiling_nonintegral. intros I'.
      apply Qeq_bool_iff in I'. congruence.
Qed.

(** C4, the counterexample: a unit price of 0.0234375 won.  The revenue
    is 168.75 and the cost 1502200000.5 before the casts; their difference
    -1502199831.75 has the floor -1502199832, as has the difference of the
    two returned integers, and the returned profit is -1502199831. *)
Example annual_profit_above_floor :
  Rounded.valid_input Rounded.low_price_plan /\
  exists l o,
    Rounded.calculate_locals Rounded.low_price_plan = Returns l /\
    Rounded.result_dict l = Returns o /\
    Rounded.calculate_costs Rounded.low_price_plan = Returns o /\
    l.(Rounded.Locals.annual_revenue) = Rounded.float (675 # 4) /\
    l.(Rounded.Locals.annual_production_cost)
    = Rounded.float (3004400001 # 2) /\
    l.(Rounded.Locals.annual_profit) = Rounded.float (-6008799327 # 4) /\
    Qfloor (-6008799327 # 4) = (-1502199832)%Z /\
    (o.(Rounded.Result.annual_revenue)
     - o.(Rounded.Result.annual_production_cost) = -1502199832)%Z /\
    o.(Rounded.Result.annual_profit) = (-1502199831)%Z.
Proof.
  split.
  - unfold Rounded.valid_input; cbn. repeat split; try lia; discriminate.
  - do 2 eexists. split; [vm_compute; reflexivity|].
    split; [vm_compute; reflexivity|].
    split; [vm_compute; reflexivity|]. cbn. repeat split.
Qed.

(** C4, amended: the returned profit is the binary64 difference of the
    revenue and the cost as they stand before their casts, truncated
    toward zero: its floor when it is not negative or is an integer, its
    floor plus one otherwise. *)
Theorem annual_profit_truncates_binary64_difference
    (i : Rounded.inputs) (o : Rounded.Result.t) :
  Rounded.calculate_costs i = Returns o ->
  exists d : Q,
    (quartz <- PyNum.mul i.(Rounded.optical_quartz_price) (PyNum.Int 16) ;;
     block_and_quartz <- PyNum.add i.(Rounded.optical_block_price) quartz ;;
     unit <- PyNum.add block_and_quartz i.(Rounded.other_parts_price) ;;
     material <-
       PyNum.mul unit (PyNum.Int (i.(Rounded.target_glab_sales) * 12)) ;;
     salaries <- PyNum.mul i.(Rounded.annual_salary)
                   (PyNum.Int i.(Rounded.required_workers)) ;;
     years <- PyNum.truediv (PyNum.Int i.(Rounded.production_period_months))
                (PyNum.Int 12) ;;
     labor <- PyNum.mul salaries years ;;
     annual_depreciation <-
       PyNum.truediv i.(Rounded.initial_setup_cost)
         (PyNum.Int i.(Rounded.depreciation_period_years)) ;;
     per_year <- PyNum.truediv (PyNum.Int 12)
                   (PyNum.Int i.(Rounded.production_period_months)) ;;
     modules <-
       PyNum.mul (PyNum.Int (i.(Rounded.target_glab_sales) * 12)) per_year ;;
     revenue <- PyNum.mul modules i.(Rounded.optical_module_price_won) ;;
     material_and_labor <- PyNum.add material labor ;;
     variable <- PyNum.mul material_and_labor per_year ;;
     cost <- PyNum.add variable annual_depreciation ;;
     PyNum.sub revenue cost)
    = Returns (PyNum.Float (F64.Fin d)) /\
    o.(Rounded.Result.annual_profit)
    = (if Qle_bool 0 d || Qeq_bool d (inject_Z (Qfloor d))
       then Qfloor d else Qfloor d + 1)%Z.
Proof.
  intros H. unfold Rounded.calculate_costs in H. unroll H.
  cbn in E0. injection E0 as <-. dedup.
  destruct (truediv_float _ _ _ E19) as (per_year & ->).
  destruct (arith_float_r Z.mul F64.mul _ _ _ E20) as (modules & ->).
  destruct (arith_float_l Z.mul F64.mul _ _ _ E21) as (revenue & ->).
  destruct (arith_float_l Z.sub F64.sub _ _ _ E26) as (profit & ->).
  destruct (int_float_finite _ _ E40) as (d & -> & ->).
  exists d. replay. split; [exact E26|]. apply int_floor_or_next.
Qed.

Lemma annual_profit_truncates_binary64_difference_witness :
  exists o, Rounded.calculate_costs Rounded.low_price_plan = Returns o /\
  exists d : Q,
    (quartz <- PyNum.mul (PyNum.Int 3750) (PyNum.Int 16) ;;
     block_and_quartz <- PyNum.add (PyNum.Int 140000) quartz ;;
     unit <- PyNum.add block_and_quartz (PyNum.Int 1000) ;;
     material <- PyNum.mul unit (PyNum.Int (600 * 12)) ;;
     salaries <- PyNum.mul (PyNum.Int 40000000) (PyNum.Int 1) ;;
     years <- PyNum.truediv (PyNum.Int 12) (PyNum.Int 12) ;;
     labor <- PyNum.mul salaries years ;;
     annual_depreciation <-
       PyNum.truediv (PyNum.Int 30000001) (PyNum.Int 2) ;;
     per_year <- PyNum.truediv (PyNum.Int 12) (PyNum.Int 12) ;;
     modules <- PyNum.mul (PyNum.Int (600 * 12)) per_year ;;
     revenue <- PyNum.mul modules (Rounded.float (3 # 128)) ;;
     material_and_labor <- PyNum.add material labor ;;
     variable <- PyNum.mul material_and_labor per_year ;;
     cost <- PyNum.add variable annual_depreciation ;;
     PyNum.sub revenue cost)
    = Returns (PyNum.Float (F64.Fin d)) /\
    o.(Rounded.Result.annual_profit)
    = (if Qle_bool 0 d || Qeq_bool d (inject_Z (Qfloor d))
       then Qfloor d else Qfloor d + 1)%Z.
Proof.
  eexists. split; [vm_compute; reflexivity|].
  apply (annual_profit_truncates_binary64_difference Rounded.low_price_plan).
  vm_compute. reflexivity.
Defined.

(** ** The profit margin *)

(** A revenue whose cast is positive is greater than zero. *)
Lemma cast_positive_gt_zero (n : PyNum.t) (z : Z) :
  PyNum.int n = Returns z -> (0 < z)%Z -> PyNum.gt n (PyNum.Int 0) = true.
Proof.
  unfold PyNum.gt, F64.lt.
  destruct n as [y|[q|s|]]; cbn [PyNum.int PyNum.real F64.le];
    try discriminate; intros E P; injection E as E; rewrite <- E in P;
    change (inject_Z 0) with 0.
  - assert (A : 0 < inject_Z y).
    { change 0 with (inject_Z 0). now rewrite <- Zlt_Qlt. }
    apply andb_true_iff. split.
    + apply Qle_bool_iff. lra.
    + apply negb_true_iff, not_true_iff_false. rewrite Qle_bool_iff. lra.
  - assert (A : 0 < q).
    { destruct (Qlt_le_dec 0 q) as [L|L]; [exact L|].
      apply int_mono in L. change (Py.int 0) with 0%Z in L. lia. }
    apply andb_true_iff. split.
    + apply Qle_bool_iff. lra.
    + apply negb_true_iff, not_true_iff_false. rewrite Qle_bool_iff. lra.
Qed.

(** C5, the counterexample to the reading on the returned revenue: one
    unit at 0.03125 won a module.  The revenue is 0.375 won before its
    cast and is returned as 0; the margin is computed from 0.375 and is
    not zero. *)
Example zero_returned_revenue_nonzero_margin :
  Rounded.valid_input Rounded.sub_won_plan /\
  exists l o,
    Rounded.calculate_locals Rounded.sub_won_plan = Returns l /\
    Rounded.calculate_costs Rounded.sub_won_plan = Returns o /\
    l.(Rounded.Locals.annual_revenue) = Rounded.float (3 # 8) /\
    o.(Rounded.Result.annual_revenue) = 0%Z /\
    o.(Rounded.Result.profit_margin)
    = Rounded.float (-3384244061252267 # 262144).
Proof.
  split.
  - unfold Rounded.valid_input; cbn. repeat split; try lia; discriminate.
  - do 2 eexists. split; [vm_compute; reflexivity|].
    split; [vm_compute; reflexivity|]. cbn. repeat split.
Qed.

(** C5, amended: on the revenue and the profit as they stand before their
    casts, each given by the operators that produce it from the arguments,
    the margin is the [int] 0 when the revenue is not greater than zero,
    and otherwise the binary64 quotient of profit by revenue, times 100,
    uncast; a returned revenue of at least 1 is always in the second
    case. *)
Theorem profit_margin_of_uncast_revenue
    (i : Rounded.inputs) (o : Rounded.Result.t) :
  Rounded.calculate_costs i = Returns o ->
  exists revenue profit : PyNum.t,
    (quartz <- PyNum.mul i.(Rounded.optical_quartz_price) (PyNum.Int 16) ;;
     block_and_quartz <- PyNum.add i.(Rounded.optical_block_price) quartz ;;
     unit <- PyNum.add block_and_quartz i.(Rounded.other_parts_price) ;;
     material <-
       PyNum.mul unit (PyNum.Int (i.(Rounded.target_glab_sales) * 12)) ;;
     salaries <- PyNum.mul i.(Rounded.annual_salary)
                   (PyNum.Int i.(Rounded.required_workers)) ;;
     years <- PyNum.truediv (PyNum.Int i.(Rounded.production_period_months))
                (PyNum.Int 12) ;;
     labor <- PyNum.mul salaries years ;;
     annual_depreciation <-
       PyNum.truediv i.(Rounded.initial_setup_cost)
         (PyNum.Int i.(Rounded.depreciation_period_years)) ;;
     per_year <- PyNum.truediv (PyNum.Int 12)
                   (PyNum.Int i.(Rounded.production_period_months)) ;;
     modules <-
       PyNum.mul (PyNum.Int (i.(Rounded.target_glab_sales) * 12)) per_year ;;
     revenue <- PyNum.mul modules i.(Rounded.optical_module_price_won) ;;
     material_and_labor <- PyNum.add material labor ;;
     variable <- PyNum.mul material_and_labor per_year ;;
     cost <- PyNum.add variable annual_depreciation ;;
     profit <- PyNum.sub revenue cost ;;
     Returns (revenue, profit))
    = Returns (revenue, profit) /\
    PyNum.int revenue = Returns o.(Rounded.Result.annual_revenue) /\
    PyNum.int profit = Returns o.(Rounded.Result.annual_profit) /\
    (if PyNum.gt revenue (PyNum.Int 0)
     then (ratio <- PyNum.truediv profit revenue ;;
           PyNum.mul ratio (PyNum.Int 100))
     else Returns (PyNum.Int 0))
    = Returns o.(Rounded.Result.profit_margin) /\
    (PyNum.gt revenue (PyNum.Int 0) = false ->
     o.(Rounded.Result.profit_margin) = PyNum.Int 0) /\
    ((0 < o.(Rounded.Result.annual_revenue))%Z ->
     PyNum.gt revenue (PyNum.Int 0) = true).
Proof.
  intros H. unfold Rounded.calculate_costs in H. unroll H.
  cbn in E0. injection E0 as <-. dedup.
  exists x21, x26. replay.
  split; [reflexivity|]. split; [exact E38|]. split; [exact E40|].
  split; [exact E27|]. split.
  - intros G. rewrite G in E27. now injection E27 as <-.
  - now apply cast_positive_gt_zero.
Qed.

Lemma profit_margin_of_uncast_revenue_witness :
  (exists o, Rounded.calculate_costs Rounded.scenario_A = Returns o /\
     o.(Rounded.Result.annual_revenue) = 30000000000%Z /\
     PyNum.gt (Rounded.float 30000000000) (PyNum.Int 0) = true /\
     o.(Rounded.Result.profit_margin)
     = Rounded.float (6686625721746107 # 70368744177664)) /\
  (exists o,
     Rounded.calculate_costs
       Rounded.free_of_charge_plan = Returns o /\
     o.(Rounded.Result.annual_revenue) = 0%Z /\
     o.(Rounded.Result.profit_margin) = PyNum.Int 0).
Proof.
  split.
  - eexists. split; [vm_compute; reflexivity|].
    match goal with
    | |- Rounded.Result.annual_revenue ?o = _ /\ _ =>
        destruct (profit_margin_of_uncast_revenue Rounded.scenario_A o)
          as (revenue & profit & C & R & P & M & Z & G);
          [vm_compute; reflexivity|]
    end.
    vm_compute in C. injection C as <- <-.
    split; [reflexivity|]. split; [apply G; reflexivity|]. reflexivity.
  - eexists. split; [vm_compute; reflexivity|].
    match goal with
    | |- Rounded.Result.annual_revenue ?o = _ /\ _ =>
        destruct (profit_margin_of_uncast_revenue
                    Rounded.free_of_charge_plan o)
          as (revenue & profit & C & R & P & M & Z & G);
          [vm_compute; reflexivity|]
    end.
    vm_compute in C. injection C as <- <-.
    split; [reflexivity|]. apply Z. vm_compute. reflexivity.
Defined.

(** ** Faults *)

(** C6, the counterexample: Scenario A at a unit price of 1e308 won is
    within the constraints of the data model, and the call raises
    [OverflowError]: the revenue is infinite in binary64 and line 320 casts
    it. *)
Example valid_input_overflows :
  Rounded.valid_input Rounded.overflowing_plan /\
  Rounded.calculate_costs Rounded.overflowing_plan = Raises OverflowError.
Proof.
  split.
  - unfold Rounded.valid_input; cbn. repeat split; try lia; discriminate.
  - vm_compute. reflexivity.
Qed.

(** Line 305 returns on finite values: the division is guarded, and the
    quotient may be infinite but is not cast. *)
Lemma margin_returns (profit revenue : PyNum.t) (j k : Z) :
  PyNum.within j profit -> PyNum.within k revenue ->
  (0 <= j <= 1023)%Z -> (0 <= k <= 1023)%Z ->
  exists m,
    (if PyNum.gt revenue (PyNum.Int 0)
     then (ratio <- PyNum.truediv profit revenue ;;
           PyNum.mul ratio (PyNum.Int 100))
     else Returns (PyNum.Int 0)) = Returns m.
Proof.
  intros Wp Wr Hj Hk. destruct (PyNum.gt _ _) eqn:G; [|eauto].
  destruct (truediv_within_returns profit revenue j k Wp Wr Hj Hk)
    as (x & Ex); [now apply gt_zero_nonzero|].
  destruct (mul_float_int_returns x 100) as (m & Em); [lia|].
  exists m. rewrite Ex, bind_unit. exact Em.
Qed.

(** Within the constraints and the moderate magnitudes every line up to
    305 returns, and every value the dictionary casts is finite. *)
Lemma calculate_locals_moderate (i : Rounded.inputs) :
  Rounded.valid_input i -> Rounded.moderate i ->
  exists l, Rounded.calculate_locals i = Returns l /\
    (PyNum.within 1000 l.(Rounded.Locals.total_optical_modules) /\
     PyNum.within 1000 l.(Rounded.Locals.monthly_optical_modules) /\
     PyNum.within 1000 l.(Rounded.Locals.daily_optical_modules) /\
     PyNum.within 1000 l.(Rounded.Locals.capacity_shortage) /\
     PyNum.within 1000 l.(Rounded.Locals.optical_block_manufacturing_cost) /\
     PyNum.within 1000 l.(Rounded.Locals.total_material_cost) /\
     PyNum.within 1000 l.(Rounded.Locals.total_labor_cost) /\
     PyNum.within 1000 l.(Rounded.Locals.total_production_cost) /\
     PyNum.within 1000 l.(Rounded.Locals.annual_depreciation) /\
     PyNum.within 1000 l.(Rounded.Locals.depreciation_cost) /\
     PyNum.within 1000 l.(Rounded.Locals.annual_revenue) /\
     PyNum.within 1000 l.(Rounded.Locals.annual_production_cost) /\
     PyNum.within 1000 l.(Rounded.Locals.annual_profit)).
Proof.
  intros (Hp & Ht & Hb & Hq & Ho & Hw & Hs & Hc & Hy & Hr).
  intros (Mt & Mw & Wcap & Wb & Wq & Wo & Ws & Wc & Wr).
  assert (Wp : PyNum.within 6
                 (PyNum.Int (Rounded.production_period_months i)))
    by (apply within_int; lia).
  assert (Wt : PyNum.within 300 (PyNum.Int (Rounded.target_glab_sales i)))
    by (apply within_int; lia).
  assert (Ww : PyNum.within 300 (PyNum.Int (Rounded.required_workers i)))
    by (apply within_int; lia).
  assert (W12 : PyNum.within 4 (PyNum.Int 12)) by (now apply within_int).
  assert (W16 : PyNum.within 4 (PyNum.Int 16)) by (now apply within_int).
  unfold Rounded.calculate_locals. cbv zeta.
  repeat returns_step.
  match goal with
  | |- exists o, bind (if PyNum.gt ?r _ then bind (PyNum.truediv ?p _) _
                       else _) _ = Returns o /\ _ =>
      let Wp := within_of p in
      let Wr := within_of r in
      destruct (margin_returns p r _ _ Wp Wr) as (m & Em); [lia | lia |]
  end.
  rewrite Em, bind_unit.
  eexists. split; [reflexivity|].
  cbn [Rounded.Locals.total_optical_modules
       Rounded.Locals.monthly_optical_modules
       Rounded.Locals.daily_optical_modules
       Rounded.Locals.capacity_shortage
       Rounded.Locals.optical_block_manufacturing_cost
       Rounded.Locals.total_material_cost
       Rounded.Locals.total_labor_cost
       Rounded.Locals.total_production_cost
       Rounded.Locals.annual_depreciation
       Rounded.Locals.depreciation_cost
       Rounded.Locals.annual_revenue
       Rounded.Locals.annual_production_cost
       Rounded.Locals.annual_profit].
  repeat split;
    try (eapply within_weaken; [|eassumption]; lia);
    apply max_within; eapply within_weaken; [|eassumption]; lia.
Qed.

(** C6, amended: within the constraints of the data model no line divides
    by zero, and the call returns its dictionary whenever, in addition, no
    argument exceeds 2^300 in magnitude. *)
Theorem no_zero_division_and_returns_when_moderate (i : Rounded.inputs) :
  Rounded.valid_input i ->
  Rounded.calculate_costs i <> Raises ZeroDivisionError /\
  (Rounded.moderate i -> exists o, Rounded.calculate_costs i = Returns o).
Proof.
  intros V. split.
  - destruct V as (Hp & Ht & Hb & Hq & Ho & Hw & Hs & Hc & Hy & Hr).
    unfold Rounded.calculate_costs, Rounded.calculate_locals,
      Rounded.result_dict.
    cbv zeta. no_zero_division.
    destruct (PyNum.gt _ _) eqn:G; no_zero_division.
    apply truediv_no_zero_division. now apply gt_zero_nonzero.
  - intros M.
    destruct (calculate_locals_moderate i V M) as (l & E & W).
    destruct W as (W1 & W2 & W3 & W4 & W5 & W6 & W7 & W8 & W9 & W10 & W11
                   & W12 & W13).
    unfold Rounded.calculate_costs. rewrite E, bind_unit.
    unfold Rounded.result_dict.
    enough (G : exists o,
              Rounded.result_dict l = Returns o /\ True)
      by (destruct G as (o & G & _); now exists o).
    unfold Rounded.result_dict.
    repeat returns_step.
    eexists. split; [reflexivity|exact I].
Qed.

Lemma no_zero_division_and_returns_when_moderate_witness :
  Rounded.calculate_costs Rounded.scenario_A <> Raises ZeroDivisionError /\
  exists o, Rounded.calculate_costs Rounded.scenario_A = Returns o.
Proof.
  destruct (no_zero_division_and_returns_when_moderate Rounded.scenario_A)
    as [A B].
  - unfold Rounded.valid_input; cbn. repeat split; try lia; discriminate.
  - split; [exact A|]. apply B.
    unfold Rounded.moderate; cbn. repeat split; try lia; discriminate.
Defined.

(** ** Operators between two doubles *)

(** An [int] below 2^53 converts exactly. *)
Lemma float_of_int_exact (z : Z) :
  (Z.abs z < 2 ^ 53)%Z ->
  PyNum.float_of_int z = Returns (F64.Fin (Qred (inject_Z z))).
Proof.
  intros Hz. unfold PyNum.float_of_int.
  now rewrite (F64Facts.round_exact _ (double_Z z Hz)).
Qed.

(** Each operator keeps its result between two doubles that enclose the
    exact value. *)
Lemma truediv_int_between (x y : Z) (lo hi : Q) (c : PyNum.t) :
  F64.double lo -> F64.double hi ->
  lo <= inject_Z x / inject_Z y <= hi ->
  PyNum.truediv (PyNum.Int x) (PyNum.Int y) = Returns c ->
  exists w, c = PyNum.Float (F64.Fin w) /\ lo <= w <= hi.
Proof.
  intros Dlo Dhi B E. cbn [PyNum.truediv] in E.
  destruct (y =? 0)%Z; [discriminate|].
  destruct (F64Facts.round_between lo hi _ Dlo Dhi B) as (w & Ew & Bw).
  rewrite Ew in E. injection E as <-. now exists w.
Qed.

Lemma mul_float_int_between (u : Q) (z : Z) (lo hi : Q) (c : PyNum.t) :
  F64.double lo -> F64.double hi -> (Z.abs z < 2 ^ 53)%Z ->
  lo <= u * inject_Z z <= hi ->
  PyNum.mul (PyNum.Float (F64.Fin u)) (PyNum.Int z) = Returns c ->
  exists w, c = PyNum.Float (F64.Fin w) /\ lo <= w <= hi.
Proof.
  intros Dlo Dhi Hz B E. unfold PyNum.mul, PyNum.arith in E.
  cbn [PyNum.to_float bind] in E. rewrite (float_of_int_exact z Hz) in E.
  cbn [bind F64.mul] in E.
  destruct (F64Facts.round_between lo hi (u * Qred (inject_Z z)) Dlo Dhi)
    as (w & Ew & Bw); [now rewrite Qred_correct|].
  rewrite Ew in E. injection E as <-. now exists w.
Qed.

Lemma truediv_float_int_between (u : Q) (z : Z) (lo hi : Q) (c : PyNum.t) :
  F64.double lo -> F64.double hi -> (1 <= z < 2 ^ 53)%Z ->
  lo <= u / inject_Z z <= hi ->
  PyNum.truediv (PyNum.Float (F64.Fin u)) (PyNum.Int z) = Returns c ->
  exists w, c = PyNum.Float (F64.Fin w) /\ lo <= w <= hi.
Proof.
  intros Dlo Dhi Hz B E. unfold PyNum.truediv in E.
  cbn [PyNum.to_float bind] in E.
  assert (Az : (Z.abs z < 2 ^ 53)%Z) by (rewrite Z.abs_eq; lia).
  rewrite (float_of_int_exact z Az) in E.
  cbn [bind F64.is_zero] in E.
  assert (N : Qeq_bool (Qred (inject_Z z)) 0 = false).
  { apply not_true_is_false. intros Zq. apply Qeq_bool_iff in Zq.
    rewrite Qred_correct in Zq. unfold Qeq in Zq. cbn in Zq. lia. }
  rewrite N in E. cbn [F64.div] in E.
  destruct (F64Facts.round_between lo hi (u / Qred (inject_Z z)) Dlo Dhi)
    as (w & Ew & Bw); [now rewrite Qred_correct|].
  rewrite Ew in E. injection E as <-. now exists w.
Qed.

Lemma sub_int_float_between (z : Z) (u : Q) (lo hi : Q) (c : PyNum.t) :
  F64.double lo -> F64.double hi -> (Z.abs z < 2 ^ 53)%Z ->
  lo <= inject_Z z - u <= hi ->
  PyNum.sub (PyNum.Int z) (PyNum.Float (F64.Fin u)) = Returns c ->
  exists w, c = PyNum.Float (F64.Fin w) /\ lo <= w <= hi.
Proof.
  intros Dlo Dhi Hz B E. unfold PyNum.sub, PyNum.arith in E.
  cbn [PyNum.to_float bind] in E. rewrite (float_of_int_exact z Hz) in E.
  cbn [bind F64.sub F64.add F64.neg] in E.
  destruct (F64Facts.round_between lo hi (Qred (inject_Z z) + - u) Dlo Dhi)
    as (w & Ew & Bw); [now rewrite Qred_correct|].
  rewrite Ew in E. injection E as <-. now exists w.
Qed.

(** The cast of a value between an integer and the next one. *)
Lemma int_between (v : Q) (k : Z) :
  (0 <= k)%Z -> inject_Z k <= v -> v < inject_Z k + 1 -> Py.int v = k.
Proof.
  intros Hk Lo Hi.
  assert (P : 0 <= v).
  { apply Qle_trans with (inject_Z k); [|exact Lo].
    change 0 with (inject_Z 0). now rewrite <- Zle_Qle. }
  rewrite int_nonneg by exact P. apply Qfloor_unique; [exact Lo|].
  rewrite inject_Z_plus. exact Hi.
Qed.

(** ** Monthly and daily output *)

(** The quotient of two [int]s lies between its floor and the last
    sixty-fourth before the next integer when the divisor is at most 64. *)
Lemma quotient_bracket (T p : Z) :
  (0 <= T)%Z -> (1 <= p <= 64)%Z ->
  inject_Z (T / p) <= inject_Z T / inject_Z p /\
  inject_Z T / inject_Z p <= inject_Z (64 * (T / p) + 63) * (1 # 64).
Proof.
  intros HT Hp.
  assert (P : 0 < inject_Z p).
  { change 0 with (inject_Z 0). rewrite <- Zlt_Qlt. lia. }
  pose proof (Z.mul_div_le T p ltac:(lia)) as A.
  pose proof (Z.mul_succ_div_gt T p ltac:(lia)) as B.
  split.
  - apply Qle_shift_div_l; [exact P|].
    rewrite <- inject_Z_mult, <- Zle_Qle. lia.
  - apply Qle_shift_div_r; [exact P|].
    assert (C : (64 * T <= (64 * (T / p) + 63) * p)%Z) by nia.
    rewrite Zle_Qle in C. rewrite !inject_Z_mult in C.
    change (inject_Z 64) with 64 in C.
    set (N := inject_Z (64 * (T / p) + 63)) in *.
    setoid_replace (N * (1 # 64) * inject_Z p)
      with ((1 # 64) * (N * inject_Z p)) by ring.
    lra.
Qed.

(** C8, the counterexample: 2^53 - 1 units over seven months.  The
    total is 108086391056891892 modules and its seventh has the floor
    15440913008127413; the returned monthly output is one more, because
    the quotient is rounded to a double before it is cast. *)
Example monthly_output_not_floor :
  Rounded.valid_input Rounded.huge_plan_7 /\
  exists o, Rounded.calculate_costs Rounded.huge_plan_7 = Returns o /\
    (108086391056891892 / 7 = 15440913008127413)%Z /\
    o.(Rounded.Result.total_optical_modules) = 108086391056891892%Z /\
    o.(Rounded.Result.monthly_optical_modules) = 15440913008127414%Z.
Proof.
  split.
  - unfold Rounded.valid_input; cbn. repeat split; try lia; discriminate.
  - eexists. split; [vm_compute; reflexivity|]. cbn. repeat split.
Qed.

(** C8, amended: for at most 2^40 units the monthly output is the floor of
    the total over the period and the daily output the floor of that
    monthly output over 30. *)
Theorem production_rates_floor (i : Rounded.inputs) (o : Rounded.Result.t) :
  Rounded.valid_input i ->
  (i.(Rounded.target_glab_sales) <= 2 ^ 40)%Z ->
  Rounded.calculate_costs i = Returns o ->
  o.(Rounded.Result.total_optical_modules)
  = (i.(Rounded.target_glab_sales) * 12)%Z /\
  o.(Rounded.Result.monthly_optical_modules)
  = (i.(Rounded.target_glab_sales) * 12
     / i.(Rounded.production_period_months))%Z /\
  o.(Rounded.Result.daily_optical_modules)
  = (o.(Rounded.Result.monthly_optical_modules) / 30)%Z.
Proof.
  intros ((Hp1 & Hp2) & Ht & _) Bt H.
  unfold Rounded.calculate_costs in H. unroll H.
  (* the total, line 276 *)
  cbn in E0. injection E0 as <-. cbn in E28. injection E28 as <-.
  set (T := (Rounded.target_glab_sales i * 12)%Z) in *.
  set (p := Rounded.production_period_months i) in *.
  set (k := (T / p)%Z).
  assert (HT : (0 <= T <= 2 ^ 44)%Z) by (unfold T; lia).
  assert (Hk : (0 <= k <= 2 ^ 44)%Z).
  { unfold k. split; [apply Z.div_pos; lia|].
    apply Z.div_le_upper_bound; nia. }
  (* the monthly output, line 279 *)
  destruct (quotient_bracket T p) as [A1 A2]; [lia | lia |]. fold k in A1, A2.
  destruct (truediv_int_between T p (inject_Z k)
              (inject_Z (64 * k + 63) * (1 # 64)) x1) as (v & -> & Lv & Uv);
    [ apply double_Z; lia
    | exact (double_scaled (64 * k + 63) (-6) ltac:(lia) ltac:(lia))
    | now split
    | exact E1 |].
  (* the daily output, line 280 *)
  set (k' := (k / 30)%Z).
  assert (Hk' : (0 <= k' <= 2 ^ 40)%Z).
  { unfold k'. split; [apply Z.div_pos; lia|].
    apply Z.div_le_upper_bound; lia. }
  pose proof (Z.mul_div_le k 30 ltac:(lia)) as B1.
  pose proof (Z.mul_succ_div_gt k 30 ltac:(lia)) as B2. fold k' in B1, B2.
  assert (C1 : inject_Z (30 * k') <= inject_Z k)
    by (rewrite <- Zle_Qle; lia).
  assert (C2 : inject_Z k <= inject_Z (30 * k' + 29))
    by (rewrite <- Zle_Qle; lia).
  rewrite inject_Z_plus, inject_Z_mult in C2. rewrite inject_Z_mult in C1.
  rewrite inject_Z_plus, inject_Z_mult in Uv.
  change (inject_Z 30) with 30 in *. change (inject_Z 29) with 29 in *.
  change (inject_Z 64) with 64 in *. change (inject_Z 63) with 63 in *.
  destruct (truediv_float_int_between v 30 (inject_Z k')
              (inject_Z (2048 * k' + 2047) * (1 # 2048)) x2)
    as (w & -> & Lw & Uw);
    [ apply double_Z; lia
    | exact (double_scaled (2048 * k' + 2047) (-11) ltac:(lia) ltac:(lia))
    | lia
    | change (inject_Z 30) with 30;
      rewrite inject_Z_plus, inject_Z_mult;
      change (inject_Z 2048) with 2048; change (inject_Z 2047) with 2047;
      unfold Qdiv; change (/ 30) with (1 # 30); split; lra
    | exact E2 |].
  rewrite inject_Z_plus, inject_Z_mult in Uw.
  change (inject_Z 2048) with 2048 in Uw.
  change (inject_Z 2047) with 2047 in Uw.
  (* the casts, lines 310 and 311 *)
  cbn in E29, E30. injection E29 as <-. injection E30 as <-.
  assert (M : Py.int v = k) by (apply int_between; [lia | lra | lra]).
  assert (D : Py.int w = k') by (apply int_between; [lia | lra | lra]).
  rewrite M, D. repeat split.
Qed.

Lemma production_rates_floor_witness :
  exists o, Rounded.calculate_costs Rounded.scenario_A = Returns o /\
    o.(Rounded.Result.total_optical_modules) = (600 * 12)%Z /\
    o.(Rounded.Result.monthly_optical_modules) = (600 * 12 / 12)%Z /\
    o.(Rounded.Result.daily_optical_modules)
    = (o.(Rounded.Result.monthly_optical_modules) / 30)%Z.
Proof.
  eexists. split; [vm_compute; reflexivity|].
  apply (production_rates_floor Rounded.scenario_A).
  - unfold Rounded.valid_input; cbn. repeat split; try lia; discriminate.
  - cbn. lia.
  - vm_compute. reflexivity.
Defined.

(** ** The capacity of line 57 *)

(** A number compares equal to itself unless it is not-a-number. *)
Lemma le_refl_finite (v : Q) :
  PyNum.le (PyNum.Float (F64.Fin v)) (PyNum.Float (F64.Fin v)) = true.
Proof.
  unfold PyNum.le; cbn. apply Qle_bool_iff. apply Qle_refl.
Qed.

(** The quotient of two [int]s is a finite [float] when it returns. *)
Lemma truediv_int_finite (x y : Z) (c : PyNum.t) :
  PyNum.truediv (PyNum.Int x) (PyNum.Int y) = Returns c ->
  exists v, c = PyNum.Float (F64.Fin v).
Proof.
  cbn [PyNum.truediv]. destruct (y =? 0)%Z; [discriminate|].
  pose proof (round_not_nan (inject_Z x / inject_Z y)) as N.
  destruct (F64.round _) as [v|s|]; try discriminate; try easy.
  intros E. injection E as <-. now exists v.
Qed.

(** [max(0, s)] cast to [int] is zero when [s] is below one. *)
Lemma shortage_zero (s : Q) (z : Z) :
  s < 1 ->
  PyNum.int (PyNum.max (PyNum.Int 0) (PyNum.Float (F64.Fin s))) = Returns z ->
  z = 0%Z.
Proof.
  intros Hs. unfold PyNum.max, PyNum.gt, F64.lt. cbn [PyNum.real F64.le].
  change (inject_Z 0) with 0.
  destruct (Qle_bool 0 s) eqn:P; cbn [andb].
  - destruct (negb _); cbn [PyNum.int]; intros E; inversion E; subst;
      [|reflexivity].
    apply Qle_bool_iff in P. apply (int_between s 0); [lia|exact P|].
    change (inject_Z 0) with 0. lra.
  - cbn [PyNum.int]. intros E. now inversion E.
Qed.

(** C10, the counterexample: 2^53 - 1 units over twenty-three months with
    the capacity line 57 derives.  The plan is reported feasible, with a
    shortage of 2: the capacity times 12, times 23, over 12 is rounded
    three times and ends 2 below the target. *)
Example upstream_capacity_with_shortage :
  Rounded.valid_input Rounded.huge_plan_23 /\
  Rounded.main_monthly_glab_capacity 9007199254740991 23
  = Returns Rounded.huge_plan_23.(Rounded.monthly_glab_capacity) /\
  exists o, Rounded.calculate_costs Rounded.huge_plan_23 = Returns o /\
    o.(Rounded.Result.production_feasible) = true /\
    o.(Rounded.Result.capacity_shortage) = 2%Z.
Proof.
  split; [|split].
  - unfold Rounded.valid_input; cbn. repeat split; try lia; discriminate.
  - vm_compute. reflexivity.
  - eexists. split; [vm_compute; reflexivity|]. cbn. split; reflexivity.
Qed.

(** C10, amended: with the capacity of line 57 the plan is always reported
    feasible, and for at most 2^40 units the shortage is 0. *)
Theorem upstream_capacity_feasible_bounded
    (i : Rounded.inputs) (o : Rounded.Result.t) :
  Rounded.valid_input i ->
  Rounded.main_monthly_glab_capacity
    i.(Rounded.target_glab_sales) i.(Rounded.production_period_months)
  = Returns i.(Rounded.monthly_glab_capacity) ->
  Rounded.calculate_costs i = Returns o ->
  o.(Rounded.Result.production_feasible) = true /\
  ((i.(Rounded.target_glab_sales) <= 2 ^ 40)%Z ->
   o.(Rounded.Result.capacity_shortage) = 0%Z).
Proof.
  intros ((Hp1 & Hp2) & Ht & _) C H.
  unfold Rounded.main_monthly_glab_capacity in C.
  unfold Rounded.calculate_costs in H. unroll H.
  set (t := Rounded.target_glab_sales i) in *.
  set (p := Rounded.production_period_months i) in *.
  (* line 283 is line 57 again *)
  rewrite C in E3. injection E3 as <-.
  split.
  - destruct (truediv_int_finite _ _ _ C) as (c & ->). apply le_refl_finite.
  - intros Bt.
    set (n := (64 * t / p)%Z).
    pose proof (Z.mul_div_le (64 * t) p ltac:(lia)) as N1.
    pose proof (Z.mul_succ_div_gt (64 * t) p ltac:(lia)) as N2.
    fold n in N1, N2.
    assert (Hn : (0 <= n)%Z) by (apply Z.div_pos; lia).
    assert (Hnp : (0 <= n * p <= 64 * t)%Z) by nia.
    assert (Hn' : (n <= 64 * t)%Z) by nia.
    assert (Htp : (t <= t * p <= 60 * t)%Z) by nia.
    assert (P : 0 < inject_Z p).
    { change 0 with (inject_Z 0). rewrite <- Zlt_Qlt. lia. }
    (* the capacity, line 57 *)
    assert (Q1 : inject_Z (n * p) <= 64 * inject_Z t).
    { change 64 with (inject_Z 64). rewrite <- inject_Z_mult, <- Zle_Qle.
      lia. }
    assert (B0 : inject_Z n * (1 # 64) <= inject_Z t / inject_Z p
                 <= inject_Z t).
    { split.
      - apply Qle_shift_div_l; [exact P|].
        setoid_replace (inject_Z n * (1 # 64) * inject_Z p)
          with ((1 # 64) * inject_Z (n * p))
          by (rewrite inject_Z_mult; ring).
        lra.
      - apply Qle_shift_div_r; [exact P|].
        rewrite <- inject_Z_mult, <- Zle_Qle. lia. }
    destruct (truediv_int_between t p (inject_Z n * (1 # 64)) (inject_Z t)
                (Rounded.monthly_glab_capacity i)) as (c & Ec & Lc & Uc);
      [ exact (double_scaled n (-6) ltac:(lia) ltac:(lia))
      | apply double_Z; lia
      | exact B0
      | exact C |].
    clear B0.
    rewrite Ec in *.
    (* the annual capacity, line 273 *)
    destruct (mul_float_int_between c 12 (inject_Z (12 * n) * (1 # 64))
                (inject_Z (12 * t)) x) as (a & -> & La & Ua);
      [ exact (double_scaled (12 * n) (-6) ltac:(lia) ltac:(lia))
      | apply double_Z; lia
      | lia
      | rewrite !inject_Z_mult; change (inject_Z 12) with 12; split; lra
      | exact E |].
    (* the capacity over the period, line 285 *)
    destruct (mul_float_int_between a p
                (inject_Z (12 * (n * p)) * (1 # 64))
                (inject_Z (12 * (t * p))) x4) as (m & -> & Lm & Um);
      [ exact (double_scaled (12 * (n * p)) (-6) ltac:(lia) ltac:(lia))
      | apply double_Z; lia
      | lia
      | split;
        [ setoid_replace (inject_Z (12 * (n * p)) * (1 # 64))
            with (inject_Z (12 * n) * (1 # 64) * inject_Z p)
            by (rewrite !inject_Z_mult; ring);
          apply Qmult_le_compat_r; [exact La | now apply Qlt_le_weak]
        | setoid_replace (inject_Z (12 * (t * p)))
            with (inject_Z (12 * t) * inject_Z p)
            by (rewrite !inject_Z_mult; ring);
          apply Qmult_le_compat_r; [exact Ua | now apply Qlt_le_weak] ]
      | exact E4 |].
    rewrite inject_Z_mult in Lm, Um. change (inject_Z 12) with 12 in Lm, Um.
    destruct (truediv_float_int_between m 12
                (inject_Z (n * p) * (1 # 64)) (inject_Z (t * p)) x5)
      as (co & -> & Lco & Uco);
      [ exact (double_scaled (n * p) (-6) ltac:(lia) ltac:(lia))
      | apply double_Z; lia
      | lia
      | unfold Qdiv; change (/ inject_Z 12) with (1 # 12); split; lra
      | exact E5 |].
    (* the shortfall *)
    assert (F1 : inject_Z (t - t * p) == inject_Z t - inject_Z (t * p)).
    { unfold Z.sub. rewrite inject_Z_plus, inject_Z_opp. ring. }
    assert (F2 : inject_Z (64 * t - n * p)
                 == 64 * inject_Z t - inject_Z (n * p)).
    { unfold Z.sub. rewrite inject_Z_plus, inject_Z_opp, (inject_Z_mult 64 t).
      change (inject_Z 64) with 64. ring. }
    destruct (sub_int_float_between t co
                (inject_Z (t - t * p))
                (inject_Z (64 * t - n * p) * (1 # 64)) x6)
      as (s & -> & Ls & Us);
      [ apply double_Z; lia
      | exact (double_scaled (64 * t - n * p) (-6) ltac:(lia) ltac:(lia))
      | lia
      | rewrite F1, F2; split; lra
      | exact E6 |].
    rewrite F2 in Us.
    apply (shortage_zero s); [|exact E31].
    assert (Q2 : inject_Z (64 * t - n * p) <= inject_Z 59)
      by (rewrite <- Zle_Qle; lia).
    rewrite F2 in Q2. change (inject_Z 59) with 59 in Q2. lra.
Qed.

Lemma upstream_capacity_feasible_bounded_witness :
  exists o, Rounded.calculate_costs Rounded.scenario_A = Returns o /\
    o.(Rounded.Result.production_feasible) = true /\
    o.(Rounded.Result.capacity_shortage) = 0%Z.
Proof.
  eexists. split; [vm_compute; reflexivity|].
  match goal with
  | |- Rounded.Result.production_feasible ?o = true /\ _ =>
      destruct (upstream_capacity_feasible_bounded Rounded.scenario_A o) as [F S]
  end.
  - unfold Rounded.valid_input; cbn. repeat split; try lia; discriminate.
  - vm_compute. reflexivity.
  - vm_compute. reflexivity.
  - split; [exact F|]. apply S. cbn. lia.
Defined.

(** ** A period of zero *)

(** Division by the [int] 0 raises [ZeroDivisionError] whatever the
    dividend. *)
Lemma truediv_zero_raises (a : PyNum.t) :
  PyNum.truediv a (PyNum.Int 0) = Raises ZeroDivisionError.
Proof.
  destruct a as [x|x]; reflexivity.
Qed.

(** The product with a small [int] returns. *)
Lemma mul_small_int_returns (a : PyNum.t) (z : Z) :
  (Z.abs z <= 2 ^ 53)%Z -> exists c, PyNum.mul a (PyNum.Int z) = Returns c.
Proof.
  intros Hz. destruct a as [x|x].
  - now exists (PyNum.Int (x * z)).
  - now apply mul_float_int_returns.
Qed.

(** X1: with [production_period_months = 0] the call raises
    [ZeroDivisionError] at line 279 whatever the other arguments are, and
    with [depreciation_period_years = 0] it does not return: line 294
    divides by it unless an earlier line has already faulted. *)
Theorem zero_period_faults (i : Rounded.inputs) :
  (i.(Rounded.production_period_months) = 0%Z ->
   Rounded.calculate_costs i = Raises ZeroDivisionError) /\
  (i.(Rounded.depreciation_period_years) = 0%Z ->
   forall o, Rounded.calculate_costs i <> Returns o).
Proof.
  split.
  - intros Hm. unfold Rounded.calculate_costs, Rounded.calculate_locals.
    cbv zeta. rewrite Hm.
    destruct (mul_small_int_returns (Rounded.monthly_glab_capacity i) 12)
      as (c & Ec); [lia|].
    rewrite Ec, bind_unit.
    change (PyNum.mul (PyNum.Int (Rounded.target_glab_sales i))
                      (PyNum.Int 12))
      with (@Returns PyNum.t
              (PyNum.Int (Rounded.target_glab_sales i * 12))).
    rewrite bind_unit, truediv_zero_raises. reflexivity.
  - intros Hy o H. unfold Rounded.calculate_costs in H. unroll H.
    rewrite Hy, truediv_zero_raises in E14. discriminate.
Qed.

Lemma zero_period_faults_witness :
  Rounded.calculate_costs
    (Rounded.plan 0 600 (Rounded.float 50) 40000000 30000000 5
                  (Rounded.float 4000000))
  = Raises ZeroDivisionError /\
  forall o,
    Rounded.calculate_costs
      (Rounded.plan 12 600 (Rounded.float 50) 40000000 30000000 0
                    (Rounded.float 4000000))
    <> Returns o.
Proof.
  split.
  - apply (zero_period_faults
             (Rounded.plan 0 600 (Rounded.float 50) 40000000 30000000 5
                           (Rounded.float 4000000))).
    reflexivity.
  - apply (zero_period_faults
             (Rounded.plan 12 600 (Rounded.float 50) 40000000 30000000 0
                           (Rounded.float 4000000))).
    reflexivity.
Defined.
